(** * PPTist snapshot store: undo / redo history

    A shallow embedding of [src/store/snapshot.ts] (the pinia store
    [useSnapshotStore]) together with the three collaborators it talks to:
    the Dexie table [db.snapshots], the slides store and the main store.

    JavaScript numbers that hold cursors, lengths, keys and slide indices
    are integers here ([Z]); this is exact on the safe integers, which
    every number the four actions compute is.  An asynchronous action is a function from the
    world to a completion (resolved with a value, or rejected with an
    error) and the world it leaves behind; the world survives a rejection,
    since whatever was written before the failing request stays written. *)

From Stdlib Require Import String ZArith List Bool Lia Sorted.
Import ListNotations.
Local Open Scope Z_scope.

(** ** JavaScript array helpers *)

(** [a.length] as a number. *)
Definition len {A : Type} (a : list A) : Z := Z.of_nat (length a).

(** [a[i]]: [None] stands for [undefined] (index out of range). *)
Definition js_index {A : Type} (a : list A) (i : Z) : option A :=
  if i <? 0 then None else nth_error a (Z.to_nat i).

(** [a.slice(start)]: a negative [start] counts from the end. *)
Definition js_slice {A : Type} (a : list A) (start : Z) : list A :=
  if start <? 0 then skipn (Z.to_nat (Z.max (len a + start) 0)) a
  else skipn (Z.to_nat start) a.

(** [Number.isSafeInteger]: the integers on which the arithmetic and the
    comparisons of JavaScript numbers are those of [Z]. *)
Definition safe_integer (n : Z) : Prop := - 2 ^ 53 < n < 2 ^ 53.

(** ** Completions of asynchronous actions *)

Inductive Error : Type :=
| IoError      (* the log request itself failed *)
| DataError    (* an invalid ([undefined]) key was handed to the log *)
| TypeError.   (* destructuring [undefined] *)

Inductive Completion (A : Type) : Type :=
| Resolved (a : A)
| Rejected (e : Error).
Arguments Resolved {A} a.
Arguments Rejected {A} e.

(** The five kinds of request the store sends to [db.snapshots]. *)
Inductive LogRequest : Type :=
| ReqKeys | ReqAdd | ReqUpdate | ReqBulkDelete | ReqToArray.

(** Which requests fail: [io r = true] when a request of kind [r] is
    rejected by the log. *)
Definition Outcome : Type := LogRequest -> bool.

Definition healthy : Outcome := fun _ => false.

Section Model.

Context {Slide : Type}.

(** ** Data *)

(** A snapshot as handed to [db.snapshots.add]: [{ index, slides }]. *)
Record Snapshot : Type := mkSnapshot {
  index  : Z;
  slides : list Slide
}.

(** The table [db.snapshots]: rows in the order of their primary key [id],
    and the key generator of the auto-incremented [id]. *)
Record Table : Type := mkTable {
  rows    : list (Z * Snapshot);
  next_id : Z
}.

(** [ScreenState] of the snapshot store. *)
Record ScreenState : Type := mkScreenState {
  snapshotCursor : Z;
  snapshotLength : Z
}.

(** The part of the slides store that the snapshot store reads and writes. *)
Record SlidesStore : Type := mkSlidesStore {
  slideIndex   : Z;
  storeSlides  : list Slide
}.

(** The part of the main store that the snapshot store writes. *)
Record MainStore : Type := mkMainStore {
  activeElementIdList : list string
}.

Record World : Type := mkWorld {
  snapshot    : ScreenState;
  snapshots   : Table;
  slidesStore : SlidesStore;
  mainStore   : MainStore
}.

Definition cursor (w : World) : Z := snapshotCursor (snapshot w).
Definition length_ (w : World) : Z := snapshotLength (snapshot w).
Definition log (w : World) : list (Z * Snapshot) := rows (snapshots w).
Definition keys (t : Table) : list Z := map fst (rows t).

(** ** Actions *)

Definition Action (A : Type) : Type := World -> Completion A * World.

Definition ret {A : Type} (a : A) : Action A := fun w => (Resolved a, w).

Definition throw {A : Type} (e : Error) : Action A := fun w => (Rejected e, w).

(** [await m; k]: a rejection of [m] ends the action. *)
Definition bind {A B : Type} (m : Action A) (k : A -> Action B) : Action B :=
  fun w =>
    match m w with
    | (Resolved a, w') => k a w'
    | (Rejected e, w') => (Rejected e, w')
    end.

(** A promise that is started and never awaited: what it wrote stays
    written, its rejection reaches nobody. *)
Definition detached {A : Type} (m : Action A) : Action unit :=
  fun w => (Resolved tt, snd (m w)).

Definition gets {A : Type} (f : World -> A) : Action A :=
  fun w => (Resolved (f w), w).

Definition modify (f : World -> World) : Action unit :=
  fun w => (Resolved tt, f w).

Notation "x <- m ;; k" := (bind m (fun x => k))
  (at level 61, m at next level, right associativity).
Notation "m ;; k" := (bind m (fun _ => k))
  (at level 61, right associativity).

(** ** The table [db.snapshots]

    Every request is one transaction of its own: when it fails, the table
    is as it was before the request. *)

Variable io : Outcome.

Definition with_table (f : Table -> Table) (w : World) : World :=
  mkWorld (snapshot w) (f (snapshots w)) (slidesStore w) (mainStore w).

(** [db.snapshots.orderBy('id').keys()] *)
Definition db_keys : Action (list Z) :=
  if io ReqKeys then throw IoError
  else gets (fun w => keys (snapshots w)).

(** [db.snapshots.add(s)]: the new row gets the next generated key, which
    is larger than every key handed out before, so the row is the last one
    in key order. *)
Definition table_add (s : Snapshot) (t : Table) : Table :=
  mkTable (rows t ++ [(next_id t, s)]) (next_id t + 1).

Definition db_add (s : Snapshot) : Action unit :=
  if io ReqAdd then throw IoError
  else modify (with_table (table_add s)).

(** [db.snapshots.update(key, { index: i })]: the row with this key, if
    there is one, gets the new [index]; its [slides] stay. *)
Definition set_index (i : Z) (s : Snapshot) : Snapshot :=
  mkSnapshot i (slides s).

Definition upd (k : Z) (i : Z) (r : Z * Snapshot) : Z * Snapshot :=
  if fst r =? k then (fst r, set_index i (snd r)) else r.

Definition table_update (k : Z) (i : Z) (t : Table) : Table :=
  mkTable (map (upd k i) (rows t)) (next_id t).

Definition db_update (key : option Z) (i : Z) : Action unit :=
  if io ReqUpdate then throw IoError
  else match key with
       | None => throw DataError
       | Some k => modify (with_table (table_update k i))
       end.

(** [db.snapshots.bulkDelete(ks)]: every row whose key is listed goes; an
    [undefined] among the keys rejects the whole request. *)
Definition listed (ks : list (option Z)) (k : Z) : bool :=
  existsb (fun o => match o with Some k' => k =? k' | None => false end) ks.

Definition table_bulkDelete (ks : list (option Z)) (t : Table) : Table :=
  mkTable (filter (fun r => negb (listed ks (fst r))) (rows t)) (next_id t).

Definition db_bulkDelete (ks : list (option Z)) : Action unit :=
  if io ReqBulkDelete then throw IoError
  else if existsb (fun o => match o with None => true | Some _ => false end) ks
       then throw DataError
       else modify (with_table (table_bulkDelete ks)).

(** [db.snapshots.orderBy('id').toArray()] *)
Definition db_toArray : Action (list (Z * Snapshot)) :=
  if io ReqToArray then throw IoError
  else gets log.

(** ** Collaborators *)

(** Modelled from the spec: [slidesStore.setSlides] is not in the source
    at hand; the document-model provider's [setSlides(sequence)] replaces
    the current slides. *)
Definition setSlides (s : list Slide) : Action unit :=
  modify (fun w =>
    mkWorld (snapshot w) (snapshots w)
            (mkSlidesStore (slideIndex (slidesStore w)) s) (mainStore w)).

(** Modelled from the spec: [slidesStore.updateSlideIndex] is not in the
    source at hand; the document-model provider's
    [setCurrentSlideIndex(integer)] stores the index. *)
Definition updateSlideIndex (i : Z) : Action unit :=
  modify (fun w =>
    mkWorld (snapshot w) (snapshots w)
            (mkSlidesStore i (storeSlides (slidesStore w))) (mainStore w)).

(** Modelled from the spec: [mainStore.setActiveElementIdList] is not in
    the source at hand; called with [[]] it is the selection-state
    provider's [clearActiveElements()]. *)
Definition setActiveElementIdList (ids : list string) : Action unit :=
  modify (fun w =>
    mkWorld (snapshot w) (snapshots w) (slidesStore w) (mkMainStore ids)).

(** ** The snapshot store *)

(** getters *)
Definition canUndo (state : ScreenState) : bool :=
  snapshotCursor state >? 0.

Definition canRedo (state : ScreenState) : bool :=
  snapshotCursor state <? snapshotLength state - 1.

(** actions *)
Definition setSnapshotCursor (c : Z) : Action unit :=
  modify (fun w =>
    mkWorld (mkScreenState c (snapshotLength (snapshot w)))
            (snapshots w) (slidesStore w) (mainStore w)).

Definition setSnapshotLength (l : Z) : Action unit :=
  modify (fun w =>
    mkWorld (mkScreenState (snapshotCursor (snapshot w)) l)
            (snapshots w) (slidesStore w) (mainStore w)).

Definition initSnapshotDatabase : Action unit :=
  newFirstSnapshot <- gets (fun w =>
      mkSnapshot (slideIndex (slidesStore w)) (storeSlides (slidesStore w))) ;;
  db_add newFirstSnapshot ;;
  setSnapshotCursor 0 ;;
  setSnapshotLength 1.

Definition snapshotLengthLimit : Z := 20.

Definition addSnapshot : Action unit :=
  allKeys <- db_keys ;;
  c <- gets cursor ;;
  let needDeleteKeys : list (option Z) :=
    if (c >=? 0) && (c <? len allKeys - 1)
    then map Some (js_slice allKeys (c + 1))
    else [] in
  snapshot_ <- gets (fun w =>
      mkSnapshot (slideIndex (slidesStore w)) (storeSlides (slidesStore w))) ;;
  db_add snapshot_ ;;
  let snapshotLength0 := len allKeys - len needDeleteKeys + 1 in
  let over := snapshotLength0 >? snapshotLengthLimit in
  let needDeleteKeys :=
    if over then needDeleteKeys ++ [js_index allKeys 0] else needDeleteKeys in
  let snapshotLength_ :=
    if over then snapshotLength0 - 1 else snapshotLength0 in
  (if snapshotLength_ >=? 2
   then i <- gets (fun w => slideIndex (slidesStore w)) ;;
        detached (db_update (js_index allKeys (snapshotLength_ - 2)) i)
   else ret tt) ;;
  db_bulkDelete needDeleteKeys ;;
  setSnapshotCursor (snapshotLength_ - 1) ;;
  setSnapshotLength snapshotLength_.

Definition unDo : Action unit :=
  c <- gets cursor ;;
  if c <=? 0 then ret tt
  else
    let snapshotCursor_ := c - 1 in
    snapshots_ <- db_toArray ;;
    match js_index snapshots_ snapshotCursor_ with
    | None => throw TypeError  (* destructuring [undefined] *)
    | Some (_, snapshot_) =>
        let index_ := index snapshot_ in
        let slides_ := slides snapshot_ in
        let slideIndex_ :=
          if index_ >? len slides_ - 1 then len slides_ - 1 else index_ in
        setSlides slides_ ;;
        updateSlideIndex slideIndex_ ;;
        setSnapshotCursor snapshotCursor_ ;;
        setActiveElementIdList []
    end.

Definition reDo : Action unit :=
  c <- gets cursor ;;
  l <- gets length_ ;;
  if c >=? l - 1 then ret tt
  else
    let snapshotCursor_ := c + 1 in
    snapshots_ <- db_toArray ;;
    match js_index snapshots_ snapshotCursor_ with
    | None => throw TypeError  (* destructuring [undefined] *)
    | Some (_, snapshot_) =>
        let index_ := index snapshot_ in
        let slides_ := slides snapshot_ in
        let slideIndex_ :=
          if index_ >? len slides_ - 1 then len slides_ - 1 else index_ in
        setSlides slides_ ;;
        updateSlideIndex slideIndex_ ;;
        setSnapshotCursor snapshotCursor_ ;;
        setActiveElementIdList []
    end.

End Model.

Arguments Snapshot : clear implicits.
Arguments Table : clear implicits.
Arguments SlidesStore : clear implicits.
Arguments World : clear implicits.
Arguments Action : clear implicits.

(** ** The host application

    The host edits the document and the selection, and calls the four
    actions of the store one after the other (single writer); a call that
    rejects leaves the world as it was at the rejection. *)

Section Host.

Context {Slide : Type}.

Inductive Call : Type :=
| CallInit
| CallRecord
| CallUndo
| CallRedo
| HostEdit (i : Z) (s : list Slide)     (* the document changes *)
| HostSelect (ids : list string).       (* the selection changes *)

Definition perform (io : Outcome) (c : Call) : Action Slide unit :=
  match c with
  | CallInit => initSnapshotDatabase io
  | CallRecord => addSnapshot io
  | CallUndo => unDo io
  | CallRedo => reDo io
  | HostEdit i s => bind (setSlides s) (fun _ => updateSlideIndex i)
  | HostSelect ids => setActiveElementIdList ids
  end.

Definition step (io : Outcome) (w : World Slide) (c : Call) : World Slide :=
  snd (perform io c w).

Definition run (io : Outcome) (cs : list Call) (w : World Slide) : World Slide :=
  fold_left (step io) cs w.

(** The state of a fresh session: [snapshotCursor: -1], [snapshotLength: 0]
    and an empty table whose key generator starts at 1. *)
Definition uninitialized (doc : SlidesStore Slide) (sel : MainStore)
  : World Slide :=
  mkWorld (mkScreenState (-1) 0) (mkTable [] 1) doc sel.

(** The same, where each call meets a log of its own mood. *)
Definition run_io (cs : list (Outcome * Call)) (w : World Slide) : World Slide :=
  fold_left (fun w oc => step (fst oc) w (snd oc)) cs w.

(** Calls that record or edit, and how many of them record. *)
Definition recording (c : Call) : bool :=
  match c with CallRecord => true | _ => false end.

Definition records_and_edits (cs : list Call) : bool :=
  forallb (fun c => match c with
                    | CallRecord | HostEdit _ _ | HostSelect _ => true
                    | CallInit | CallUndo | CallRedo => false
                    end) cs.

Definition count_records (cs : list Call) : nat :=
  length (filter recording cs).

(** [CallInit] occurs only where the log is empty. *)
Fixpoint init_on_empty (io : Outcome) (cs : list Call) (w : World Slide)
  : bool :=
  match cs with
  | [] => true
  | c :: cs' =>
      match c, log w with
      | CallInit, _ :: _ => false
      | _, _ => init_on_empty io cs' (step io w c)
      end
  end.

(** ** Predicates of the specification *)

(** The table lists its rows by increasing key, below the next key to be
    generated. *)
Definition table_wf (t : Table Slide) : Prop :=
  StronglySorted Z.lt (keys t ++ [next_id t]).

(** Whether [init] is among the calls; whether [init] or [record] is. *)
Definition init_called (cs : list Call) : bool :=
  existsb (fun c => match c with CallInit => true | _ => false end) cs.

Definition started (cs : list Call) : bool :=
  existsb (fun c => match c with
                    | CallInit | CallRecord => true
                    | _ => false
                    end) cs.

(** After the calls [cs]: [length] is the number of rows an ordered scan
    retrieves, and the cursor is a position in it, or, where [init] was
    never called, the cursor is -1 and the length 0. *)
Definition history_consistent (cs : list Call) (w : World Slide) : Prop :=
  length_ w = len (log w) /\
  (0 <= cursor w <= length_ w - 1 \/
   (init_called cs = false /\ cursor w = -1 /\ length_ w = 0)).

(** The snapshot the store captures from the document right now. *)
Definition capture (w : World Slide) : Snapshot Slide :=
  mkSnapshot (slideIndex (slidesStore w)) (storeSlides (slidesStore w)).

(** Position-wise counterpart of [table_update]. *)
Fixpoint patch_at (p : nat) (i : Z) (l : list (Z * Snapshot Slide))
  : list (Z * Snapshot Slide) :=
  match l, p with
  | [], _ => []
  | r :: l', O => (fst r, set_index i (snd r)) :: l'
  | r :: l', S p' => r :: patch_at p' i l'
  end.

End Host.

Arguments Call : clear implicits.

(** ** Reading the results

    What the actions leave behind when the log serves every request,
    written as functions of the world they start in, and the predicates
    the properties are stated with. *)

Section Reading.

Context {Slide : Type}.

Implicit Types (w : World Slide).

(** How many of the rows present before the call are not in the
    abandoned redo branch. *)
Definition kept w : nat :=
  if (cursor w >=? 0) && (cursor w <? len (log w) - 1)
  then Z.to_nat (cursor w + 1)
  else length (log w).

(** Whether the rows kept and the new one exceed the limit. *)
Definition evicting w : bool :=
  Z.of_nat (kept w) + 1 >? snapshotLengthLimit.

(** The length, the rows and the world [addSnapshot] ends with. *)
Definition recorded_length w : Z :=
  if evicting w then Z.of_nat (kept w) else Z.of_nat (kept w) + 1.

Definition recorded_rows w : list (Z * Snapshot Slide) :=
  let i := slideIndex (slidesStore w) in
  (if evicting w
   then tl (firstn (kept w) (patch_at (kept w - 2) i (log w)))
   else firstn (kept w) (patch_at (kept w - 1) i (log w)))
  ++ [(next_id (snapshots w), capture w)].

Definition recorded w : World Slide :=
  mkWorld (mkScreenState (recorded_length w - 1) (recorded_length w))
          (mkTable (recorded_rows w) (next_id (snapshots w) + 1))
          (slidesStore w) (mainStore w).

(** [needDeleteKeys] as the truncation step leaves it. *)
Definition need_delete (c : Z) (allKeys : list Z) : list (option Z) :=
  if (c >=? 0) && (c <? len allKeys - 1)
  then map Some (js_slice allKeys (c + 1))
  else [].

(** [addSnapshot] from the computation of [snapshotLength] on, as a
    function of [allKeys] and [needDeleteKeys]. *)
Definition settle (io : Outcome) (allKeys : list Z)
  (needDeleteKeys : list (option Z)) : Action Slide unit :=
  let snapshotLength0 := len allKeys - len needDeleteKeys + 1 in
  let over := snapshotLength0 >? snapshotLengthLimit in
  let needDeleteKeys :=
    if over then needDeleteKeys ++ [js_index allKeys 0] else needDeleteKeys in
  let snapshotLength_ :=
    if over then snapshotLength0 - 1 else snapshotLength0 in
  bind (if snapshotLength_ >=? 2
        then bind (gets (fun w => slideIndex (slidesStore w))) (fun i =>
             detached (db_update io (js_index allKeys (snapshotLength_ - 2)) i))
        else ret tt) (fun _ =>
  bind (db_bulkDelete io needDeleteKeys) (fun _ =>
  bind (setSnapshotCursor (snapshotLength_ - 1)) (fun _ =>
  setSnapshotLength snapshotLength_))).

(** The world after a snapshot [s] was put back with the cursor at [c]. *)
Definition restored (c : Z) (s : Snapshot Slide) w : World Slide :=
  mkWorld (mkScreenState c (length_ w)) (snapshots w)
          (mkSlidesStore
             (if index s >? len (slides s) - 1
              then len (slides s) - 1 else index s)
             (slides s))
          (mkMainStore []).

(** [unDo] and [reDo] past their guards, with [c] the new cursor. *)
Definition restore_at (c : Z) w : Completion unit * World Slide :=
  match js_index (log w) c with
  | None => (Rejected TypeError, w)
  | Some (_, s) => (Resolved tt, restored c s w)
  end.

(** What every call keeps true, whatever the order of the calls: the keys
    increase, the cursor is a position below [snapshotLength], which is at
    most the limit and at most the number of rows. *)
Definition history_inv w : Prop :=
  table_wf (snapshots w) /\
  ((cursor w = -1 /\ length_ w = 0 /\ log w = []) \/
   (0 <= cursor w <= length_ w - 1 /\ length_ w <= snapshotLengthLimit /\
    (length_ w = len (log w) \/ (length_ w = 1 /\ 1 <= len (log w))))).

(** [unDo] and then [reDo] resolve and bring back everything but the
    selection: cursor and length, the log, the slides and the slide
    index. *)
Definition round_trip_exact w : Prop :=
  exists w2 w3,
    unDo healthy w = (Resolved tt, w2) /\
    reDo healthy w2 = (Resolved tt, w3) /\
    snapshot w3 = snapshot w /\ snapshots w3 = snapshots w /\
    slidesStore w3 = slidesStore w.

(** A world the host can bring about from a fresh session. *)
Definition reachable w : Prop :=
  exists doc sel cs, w = run healthy cs (uninitialized doc sel).

(** The records of the log by key and content, the focus index left out. *)
Definition contents w : list (Z * list Slide) :=
  map (fun r => (fst r, slides (snd r))) (log w).

(** The log and the length are these; the document and the selection are
    these. *)
Definition same_log (t : Table Slide) (l : Z) w : Prop :=
  snapshots w = t /\ length_ w = l.

Definition same_doc (d : SlidesStore Slide) (m : MainStore) w : Prop :=
  slidesStore w = d /\ mainStore w = m.

(** After [init] and [n] calls of [addSnapshot] with nothing undone: the
    keys are the last [min (n + 1) 20] of [1 .. n + 1], the cursor is on
    the last. *)
Definition window (n : nat) w : Prop :=
  table_wf (snapshots w) /\
  next_id (snapshots w) = Z.of_nat (n + 2) /\
  keys (snapshots w)
  = map Z.of_nat (seq (n + 2 - Nat.min (n + 1) 20) (Nat.min (n + 1) 20)) /\
  cursor w = Z.of_nat (Nat.min (n + 1) 20) - 1 /\
  length_ w = Z.of_nat (Nat.min (n + 1) 20).

(** An action keeps [P] when the world it ends in has [P] if the world
    it starts in has, resolved or rejected. *)
Definition preserves {A : Type} (P : World Slide -> Prop)
  (m : Action Slide A) : Prop :=
  forall w, P w -> P (snd (m w)).

End Reading.

(** The key and the [index] of the row at position [i] of the log. *)
Definition focus_at {Slide : Type} (w : World Slide) (i : Z) : option (Z * Z) :=
  option_map (fun r => (fst r, index (snd r))) (js_index (log w) i).

(** ** Example worlds *)

(** A deck of six slides, the first one in focus, nothing selected, in a
    fresh session. *)
Definition deck : list string :=
  ["title"; "agenda"; "problem"; "design"; "results"; "thanks"]%string.

Definition fresh : World string :=
  uninitialized (mkSlidesStore 0 deck) (mkMainStore []).

(** The log request that updates a field fails, every other one works. *)
Definition update_fails : Outcome :=
  fun r => match r with ReqUpdate => true | _ => false end.

(** Twenty snapshots taken on the first slide, the cursor on the last of
    them; then the user moves to the sixth slide. *)
Definition full_history : World string :=
  run healthy (CallInit :: repeat CallRecord 19 ++ [HostEdit 5 deck]) fresh.

Definition short_deck : list string := ["title"; "agenda"; "thanks"]%string.

(** Three snapshots; the first and the third were taken with the eighth
    slide in focus and hold three slides only.  The cursor is on the
    second. *)
Definition stale_focus : World string :=
  mkWorld (mkScreenState 1 3)
          (mkTable [(1, mkSnapshot 7 short_deck);
                    (2, mkSnapshot 0 deck);
                    (3, mkSnapshot 7 short_deck)] 4)
          (mkSlidesStore 0 deck) (mkMainStore ["el-1"%string]).

(** Init, three recorded edits, two undos, and a fourth edit not yet
    recorded: four rows in the log, the cursor on the second. *)
Definition undone_twice : World string :=
  run healthy
    [CallInit;
     HostEdit 1 (firstn 2 deck); CallRecord;
     HostEdit 2 (firstn 3 deck); CallRecord;
     HostEdit 3 (firstn 4 deck); CallRecord;
     CallUndo; CallUndo;
     HostEdit 4 (firstn 5 deck)] fresh.

(** Twenty rows in the log and the cursor on the last. *)
Definition at_capacity : World string :=
  run healthy (CallInit :: repeat CallRecord 19) fresh.

(** Right after a record taken with two slides in the deck and the slide
    index at 9. *)
Definition past_the_deck : World string :=
  run healthy [CallInit; HostEdit 9 (firstn 2 deck); CallRecord] fresh.

(** The batched delete fails, every other request works. *)
Definition delete_fails : Outcome :=
  fun r => match r with ReqBulkDelete => true | _ => false end.

(** Two rows in the log, and a cursor and a length set by hand that the
    log does not back. *)
Definition short_log : World string :=
  snd (setSnapshotLength 5
         (snd (setSnapshotCursor 3
                 (run healthy [CallInit; HostEdit 1 deck; CallRecord] fresh)))).

(** Twenty-one rows, left by as many calls of [init], and the cursor set
    by hand on the last. *)
Definition overfull : World string :=
  snd (setSnapshotCursor 20 (run healthy (repeat CallInit 21) fresh)).

(** * Properties *)

(** ** Arrays *)

Lemma len_app {A : Type} (a b : list A) : len (a ++ b) = len a + len b.
Proof. unfold len. rewrite length_app. lia. Qed.

Lemma len_nonneg {A : Type} (a : list A) : 0 <= len a.
Proof. unfold len. lia. Qed.

Lemma len_map {A B : Type} (f : A -> B) (a : list A) : len (map f a) = len a.
Proof. unfold len. now rewrite length_map. Qed.

Lemma js_index_nth {A : Type} (a : list A) (n : nat) :
  js_index a (Z.of_nat n) = nth_error a n.
Proof.
  unfold js_index. destruct (Z.of_nat n <? 0) eqn:E.
  - apply Z.ltb_lt in E. lia.
  - now rewrite Nat2Z.id.
Qed.

(** ** Tables with increasing keys *)

Lemma sorted_app_fresh (ks : list Z) (b : Z) :
  StronglySorted Z.lt (ks ++ [b]) ->
  StronglySorted Z.lt ks /\ Forall (fun k => k < b) ks.
Proof.
  induction ks as [|k ks IH]; simpl; intros H.
  - split; constructor.
  - apply StronglySorted_inv in H. destruct H as [Hs Hf].
    destruct (IH Hs) as [Hs' Hb]. split.
    + constructor; [exact Hs'|].
      apply Forall_app in Hf. tauto.
    + constructor; [|exact Hb].
      apply Forall_app in Hf. destruct Hf as [_ Hf].
      now inversion Hf.
Qed.

Lemma sorted_snoc (ks : list Z) (b : Z) :
  StronglySorted Z.lt ks -> Forall (fun k => k < b) ks ->
  StronglySorted Z.lt (ks ++ [b]).
Proof.
  induction ks as [|k ks IH]; simpl; intros Hs Hb.
  - repeat constructor.
  - apply StronglySorted_inv in Hs. destruct Hs as [Hs Hf].
    inversion Hb; subst. constructor; [now apply IH|].
    apply Forall_app. split; [exact Hf|]. now constructor.
Qed.

Lemma sorted_NoDup (ks : list Z) : StronglySorted Z.lt ks -> NoDup ks.
Proof.
  induction 1 as [|k ks Hs IH Hf]; constructor; [|exact IH].
  intros Hin. rewrite Forall_forall in Hf. specialize (Hf _ Hin). lia.
Qed.

Section Rows.

Context {Slide : Type}.

Implicit Types (l : list (Z * Snapshot Slide)) (r : Z * Snapshot Slide) (k i : Z).

Lemma upd_fst k i r : fst (upd k i r) = fst r.
Proof. unfold upd. now destruct (fst r =? k). Qed.

Lemma upd_fresh k i l : ~ In k (map fst l) -> map (upd k i) l = l.
Proof.
  induction l as [|r l IH]; simpl; intros Hk; [reflexivity|].
  rewrite IH by tauto. unfold upd.
  destruct (Z.eqb_spec (fst r) k); [exfalso; tauto|reflexivity].
Qed.

Lemma upd_patch k i l p :
  NoDup (map fst l) -> nth_error (map fst l) p = Some k ->
  map (upd k i) l = patch_at p i l.
Proof.
  revert p. induction l as [|r l IH]; intros p Hnd Hp.
  - now destruct p.
  - simpl in Hnd. inversion Hnd as [|? ? Hr Hl]; subst.
    destruct p as [|p]; simpl in *.
    + injection Hp as <-. rewrite upd_fresh by exact Hr.
      unfold upd. now rewrite Z.eqb_refl.
    + rewrite (IH p Hl Hp). unfold upd.
      destruct (Z.eqb_spec (fst r) k) as [E|E]; [|reflexivity].
      exfalso. apply Hr. rewrite E. eapply nth_error_In. exact Hp.
Qed.

Lemma patch_keys p i l : map fst (patch_at p i l) = map fst l.
Proof.
  revert p. induction l as [|r l IH]; intros [|p]; simpl; try reflexivity.
  now rewrite IH.
Qed.

Lemma patch_length p i l : length (patch_at p i l) = length l.
Proof.
  rewrite <- (length_map fst), patch_keys. apply length_map.
Qed.

Lemma patch_nth p i l q :
  nth_error (patch_at p i l) q =
  if Nat.eqb q p
  then option_map (fun r => (fst r, set_index i (snd r))) (nth_error l q)
  else nth_error l q.
Proof.
  revert p q. induction l as [|r l IH]; intros p q.
  - destruct p, q; simpl; try reflexivity; now destruct (Nat.eqb _ _).
  - destruct p as [|p], q as [|q]; simpl; try reflexivity.
    apply IH.
Qed.

Lemma listed_app (a b : list (option Z)) k :
  listed (a ++ b) k = listed a k || listed b k.
Proof. unfold listed. apply existsb_app. Qed.

Lemma listed_Some (ks : list Z) k :
  listed (map Some ks) k = true <-> In k ks.
Proof.
  unfold listed. rewrite existsb_exists. split.
  - intros [o [Ho Hk]]. apply in_map_iff in Ho. destruct Ho as [k' [<- Hin]].
    apply Z.eqb_eq in Hk. now subst.
  - intros Hin. exists (Some k). split; [now apply in_map|apply Z.eqb_refl].
Qed.

Lemma filter_all_listed (ks : list (option Z)) l :
  (forall r, In r l -> listed ks (fst r) = true) ->
  filter (fun r => negb (listed ks (fst r))) l = [].
Proof.
  induction l as [|r l IH]; simpl; intros H; [reflexivity|].
  rewrite (H r) by now left. simpl. apply IH. intros; apply H; now right.
Qed.

Lemma filter_none_listed (ks : list (option Z)) l :
  (forall r, In r l -> listed ks (fst r) = false) ->
  filter (fun r => negb (listed ks (fst r))) l = l.
Proof.
  induction l as [|r l IH]; simpl; intros H; [reflexivity|].
  rewrite (H r) by now left. simpl. f_equal. apply IH.
  intros; apply H; now right.
Qed.

(** Deleting the keys after position [m], and some more, keeps the first
    [m] rows but for those more. *)
Lemma filter_after (extra : list (option Z)) l m :
  NoDup (map fst l) ->
  filter (fun r =>
            negb (listed (map Some (skipn m (map fst l)) ++ extra) (fst r))) l
  = filter (fun r => negb (listed extra (fst r))) (firstn m l).
Proof.
  revert m. induction l as [|r l IH]; intros m Hnd.
  - now destruct m.
  - simpl in Hnd. inversion Hnd as [|? ? Hr Hl]; subst.
    destruct m as [|m].
    + rewrite filter_all_listed; [reflexivity|].
      intros r' Hin. rewrite listed_app. apply orb_true_iff. left.
      apply listed_Some. change (In (fst r') (map fst (r :: l))).
      now apply in_map.
    + simpl. rewrite listed_app.
      assert (Hno : listed (map Some (skipn m (map fst l))) (fst r) = false).
      { apply not_true_is_false. intros Hc. apply listed_Some in Hc.
        apply Hr. revert Hc. rewrite <- (firstn_skipn m (map fst l)) at 2.
        intros Hc. apply in_or_app. now right. }
      rewrite Hno. simpl. rewrite IH by exact Hl. reflexivity.
Qed.

Lemma filter_head r l :
  NoDup (map fst (r :: l)) ->
  filter (fun r' => negb (listed [Some (fst r)] (fst r'))) (r :: l) = l.
Proof.
  intros Hnd. simpl in Hnd. inversion Hnd as [|? ? Hr Hl]; subst.
  cbn [filter listed existsb]. rewrite Z.eqb_refl. cbn [orb negb].
  apply (filter_none_listed [Some (fst r)]). intros r' Hin. simpl.
  destruct (Z.eqb_spec (fst r') (fst r)) as [E|E]; [|reflexivity].
  exfalso. apply Hr. rewrite <- E. now apply in_map.
Qed.

End Rows.

(** ** What [addSnapshot] computes *)

Section Recording.

Context {Slide : Type}.

Implicit Types (w : World Slide).

Lemma kept_le w : (kept w <= length (log w))%nat.
Proof.
  unfold kept, len.
  destruct ((cursor w >=? 0) && (cursor w <? Z.of_nat (length (log w)) - 1)) eqn:E;
    [|lia].
  apply andb_true_iff in E. destruct E as [E1 E2].
  apply Z.geb_le in E1. apply Z.ltb_lt in E2. lia.
Qed.

(** The rows after the update request and after the batched delete, row
    by row. *)
Lemma update_rows (l : list (Z * Snapshot Slide)) p k i nid s :
  NoDup (map fst l) -> Forall (fun k => k < nid) (map fst l) ->
  nth_error (map fst l) p = Some k ->
  map (upd k i) (l ++ [(nid, s)]) = patch_at p i l ++ [(nid, s)].
Proof.
  intros Hnd Hb Hp. rewrite map_app, (upd_patch k i l p Hnd Hp).
  f_equal. simpl. unfold upd. simpl.
  destruct (Z.eqb_spec nid k) as [E|E]; [|reflexivity].
  exfalso. apply nth_error_In in Hp. rewrite Forall_forall in Hb.
  specialize (Hb _ Hp). lia.
Qed.

Lemma new_row_stays (ks : list Z) (extra : option Z) nid :
  Forall (fun k => k < nid) ks ->
  (forall k, extra = Some k -> In k ks) ->
  forall m, listed (map Some (skipn m ks) ++ [extra]) nid = false.
Proof.
  intros Hb Hx m. apply not_true_is_false. intros Hc.
  rewrite listed_app in Hc. apply orb_true_iff in Hc.
  rewrite Forall_forall in Hb. destruct Hc as [Hc|Hc].
  - apply listed_Some in Hc.
    assert (In nid ks).
    { rewrite <- (firstn_skipn m ks). apply in_or_app. now right. }
    specialize (Hb _ H). lia.
  - destruct extra as [k|]; simpl in Hc; [|discriminate].
    rewrite orb_false_r in Hc. apply Z.eqb_eq in Hc. subst k.
    specialize (Hb _ (Hx _ eq_refl)). lia.
Qed.

Lemma bulk_keep (l : list (Z * Snapshot Slide)) ks m nid s :
  map fst l = ks -> NoDup ks -> Forall (fun k => k < nid) ks ->
  filter (fun r => negb (listed (map Some (skipn m ks)) (fst r)))
         (l ++ [(nid, s)])
  = firstn m l ++ [(nid, s)].
Proof.
  intros <- Hnd Hb. rewrite filter_app. f_equal.
  - rewrite <- (app_nil_r (map Some _)), filter_after by exact Hnd.
    apply filter_none_listed. reflexivity.
  - cbn [filter fst].
    pose proof (new_row_stays (map fst l) None nid Hb) as Hn.
    specialize (Hn ltac:(discriminate) m).
    rewrite listed_app in Hn. apply orb_false_iff in Hn. destruct Hn as [Hn _].
    now rewrite Hn.
Qed.

Lemma bulk_evict (l : list (Z * Snapshot Slide)) ks k0 m nid s :
  map fst l = ks -> NoDup ks -> Forall (fun k => k < nid) ks ->
  nth_error ks 0 = Some k0 -> (1 <= m)%nat ->
  filter (fun r => negb (listed (map Some (skipn m ks) ++ [Some k0]) (fst r)))
         (l ++ [(nid, s)])
  = tl (firstn m l) ++ [(nid, s)].
Proof.
  intros <- Hnd Hb H0 Hm. rewrite filter_app. f_equal.
  - rewrite filter_after by exact Hnd.
    destruct l as [|r l]; [discriminate|]. destruct m as [|m]; [lia|].
    simpl in H0. injection H0 as <-. cbn [firstn tl].
    apply filter_head.
    change (NoDup (map fst (firstn (S m) (r :: l)))).
    rewrite <- firstn_map.
    rewrite <- (firstn_skipn (S m) (map fst (r :: l))) in Hnd.
    now apply NoDup_app_remove_r in Hnd.
  - cbn [filter fst].
    rewrite (new_row_stays (map fst l) (Some k0) nid Hb); [reflexivity|].
    intros k E. injection E as <-. eapply nth_error_In. exact H0.
Qed.

Lemma addSnapshot_settle io w :
  addSnapshot io w =
  if io ReqKeys then (Rejected IoError, w)
  else if io ReqAdd then (Rejected IoError, w)
  else settle io (keys (snapshots w))
              (need_delete (cursor w) (keys (snapshots w)))
              (with_table (table_add (capture w)) w).
Proof.
  unfold addSnapshot, db_keys, db_add, bind, gets, modify, throw.
  destruct (io ReqKeys); [reflexivity|].
  destruct (io ReqAdd); reflexivity.
Qed.

Lemma need_delete_kept w :
  need_delete (cursor w) (keys (snapshots w))
  = map Some (skipn (kept w) (keys (snapshots w))).
Proof.
  unfold need_delete, kept, log, keys. rewrite len_map.
  destruct ((cursor w >=? 0) && (cursor w <? len (rows (snapshots w)) - 1)) eqn:E.
  - apply andb_true_iff in E. destruct E as [E1 E2].
    apply Z.geb_le in E1. unfold js_slice.
    destruct (cursor w + 1 <? 0) eqn:E3; [apply Z.ltb_lt in E3; lia|].
    reflexivity.
  - rewrite <- (length_map fst), skipn_all. reflexivity.
Qed.

Lemma keys_defined (ks : list Z) (x : list (option Z)) :
  existsb (fun o => match o with None => true | Some _ => false end)
          (map Some ks ++ x)
  = existsb (fun o => match o with None => true | Some _ => false end) x.
Proof.
  rewrite existsb_app. induction ks as [|k ks IH]; simpl; [reflexivity|].
  exact IH.
Qed.

Lemma nth_key (rs : list (Z * Snapshot Slide)) (p : nat) :
  (p < length rs)%nat -> exists k, nth_error (map fst rs) p = Some k.
Proof.
  intros Hp. destruct (nth_error (map fst rs) p) as [k|] eqn:E; [now exists k|].
  apply nth_error_None in E. rewrite length_map in E. lia.
Qed.

Ltac world_simpl :=
  cbn [snapshot snapshots rows next_id slidesStore mainStore snd
       snapshotCursor snapshotLength].

Lemma settle_healthy (rs : list (Z * Snapshot Slide)) m st nid nid' s doc sel :
  NoDup (map fst rs) -> Forall (fun k => k < nid) (map fst rs) ->
  (m <= length rs)%nat ->
  settle healthy (map fst rs) (map Some (skipn m (map fst rs)))
         (mkWorld st (mkTable (rs ++ [(nid, s)]) nid') doc sel)
  = (Resolved tt,
     let i := slideIndex doc in
     let over := Z.of_nat m + 1 >? snapshotLengthLimit in
     let sl := if over then Z.of_nat m else Z.of_nat m + 1 in
     mkWorld (mkScreenState (sl - 1) sl)
       (mkTable
          ((if over
            then tl (firstn m (patch_at (m - 2) i rs))
            else firstn m (patch_at (m - 1) i rs)) ++ [(nid, s)])
          nid')
       doc sel).
Proof.
  intros Hnd Hb Hm. unfold settle. cbv zeta.
  assert (E : len (map fst rs) - len (map Some (skipn m (map fst rs))) + 1
              = Z.of_nat m + 1).
  { rewrite !len_map. unfold len. rewrite length_skipn, length_map. lia. }
  rewrite E. clear E.
  destruct (Z.of_nat m + 1 >? snapshotLengthLimit) eqn:Eo.
  - apply Z.gtb_lt in Eo. unfold snapshotLengthLimit in Eo.
    replace (Z.of_nat m + 1 - 1) with (Z.of_nat m) by lia.
    replace (Z.of_nat m - 2) with (Z.of_nat (m - 2)) by lia.
    change 0 with (Z.of_nat 0) at 1. rewrite !js_index_nth.
    destruct (nth_key rs (m - 2)) as [k Hk]; [lia|].
    destruct (nth_key rs 0) as [k0 Hk0]; [lia|].
    rewrite Hk, Hk0.
    destruct (Z.of_nat m >=? 2) eqn:E2;
      [|rewrite Z.geb_leb in E2; apply Z.leb_gt in E2; lia].
    unfold bind, gets, detached, db_update, db_bulkDelete, modify, healthy,
      with_table, table_update, table_bulkDelete,
      setSnapshotCursor, setSnapshotLength.
    world_simpl.
    rewrite (keys_defined _ [Some k0]). cbn [existsb orb].
    rewrite (update_rows rs (m - 2) k _ nid s Hnd Hb Hk). world_simpl.
    rewrite (bulk_evict _ (map fst rs) k0 m nid s);
      [reflexivity|apply patch_keys|assumption|assumption|assumption|lia].
  - rewrite Z.gtb_ltb in Eo. apply Z.ltb_ge in Eo.
    unfold snapshotLengthLimit in Eo.
    assert (Hdel : forall (rs' : list (Z * Snapshot Slide)) (w' : World Slide),
      map fst rs' = map fst rs ->
      rows (snapshots w') = rs' ++ [(nid, s)] ->
      next_id (snapshots w') = nid' -> slidesStore w' = doc ->
      mainStore w' = sel ->
      bind (db_bulkDelete healthy (map Some (skipn m (map fst rs))))
        (fun _ => bind (setSnapshotCursor (Z.of_nat m + 1 - 1))
        (fun _ => setSnapshotLength (Z.of_nat m + 1))) w'
      = (Resolved tt,
         mkWorld (mkScreenState (Z.of_nat m + 1 - 1) (Z.of_nat m + 1))
           (mkTable (firstn m rs' ++ [(nid, s)]) nid') doc sel)).
    { intros rs' [st' [rs'' n'] doc' sel'] Hkeys Hr Hn Hd Hsel.
      simpl in Hr, Hn, Hd, Hsel.
      subst. unfold bind, db_bulkDelete, modify, healthy, with_table,
        table_bulkDelete, setSnapshotCursor, setSnapshotLength.
      world_simpl.
      rewrite <- (app_nil_r (map Some _)), keys_defined. cbn [existsb].
      rewrite app_nil_r. world_simpl.
      rewrite (bulk_keep _ (map fst rs) m nid s);
        [reflexivity|assumption|assumption|assumption]. }
    destruct (Z.of_nat m + 1 >=? 2) eqn:E2.
    + rewrite Z.geb_leb in E2. apply Z.leb_le in E2.
      replace (Z.of_nat m + 1 - 2) with (Z.of_nat (m - 1)) by lia.
      rewrite js_index_nth.
      destruct (nth_key rs (m - 1)) as [k Hk]; [lia|]. rewrite Hk.
      unfold bind at 1 2. unfold gets, detached.
      apply Hdel; try reflexivity; [apply patch_keys|].
      cbn. apply (update_rows rs (m - 1) k _ nid s Hnd Hb Hk).
    + rewrite Z.geb_leb in E2. apply Z.leb_gt in E2.
      assert (m = O) by lia. subst m.
      unfold bind at 1. unfold ret.
      apply (Hdel rs); reflexivity.
Qed.

Lemma addSnapshot_healthy w :
  table_wf (snapshots w) -> addSnapshot healthy w = (Resolved tt, recorded w).
Proof.
  intros Hwf. apply sorted_app_fresh in Hwf. destruct Hwf as [Hs Hb].
  pose proof (sorted_NoDup _ Hs) as Hnd.
  pose proof (kept_le w) as Hk.
  rewrite addSnapshot_settle. cbn [healthy].
  rewrite need_delete_kept.
  destruct w as [st [rs nid] doc sel].
  unfold with_table, table_add, keys, log in *.
  cbn [snapshot snapshots rows next_id slidesStore mainStore] in *.
  rewrite settle_healthy by assumption. reflexivity.
Qed.

End Recording.

(** ** What the other actions compute *)

Section Restoring.

Context {Slide : Type}.

Implicit Types (w : World Slide).

Lemma unDo_healthy w :
  unDo healthy w =
  if cursor w <=? 0 then (Resolved tt, w) else restore_at (cursor w - 1) w.
Proof.
  unfold unDo, restore_at, db_toArray, healthy, bind, gets, ret. cbn beta iota.
  destruct (cursor w <=? 0); [reflexivity|]. cbn beta iota.
  destruct (js_index (log w) (cursor w - 1)) as [[k s]|]; reflexivity.
Qed.

Lemma reDo_healthy w :
  reDo healthy w =
  if cursor w >=? length_ w - 1 then (Resolved tt, w)
  else restore_at (cursor w + 1) w.
Proof.
  unfold reDo, restore_at, db_toArray, healthy, bind, gets, ret. cbn beta iota.
  destruct (cursor w >=? length_ w - 1); [reflexivity|]. cbn beta iota.
  destruct (js_index (log w) (cursor w + 1)) as [[k s]|]; reflexivity.
Qed.

Lemma initSnapshotDatabase_healthy w :
  initSnapshotDatabase healthy w =
  (Resolved tt,
   mkWorld (mkScreenState 0 1) (table_add (capture w) (snapshots w))
           (slidesStore w) (mainStore w)).
Proof. reflexivity. Qed.

Lemma js_index_some {A : Type} (a : list A) (i : Z) :
  0 <= i < len a -> exists x, js_index a i = Some x.
Proof.
  intros Hi. unfold js_index, len in *.
  destruct (i <? 0) eqn:E; [apply Z.ltb_lt in E; lia|].
  destruct (nth_error a (Z.to_nat i)) as [x|] eqn:En; [now exists x|].
  apply nth_error_None in En. lia.
Qed.

End Restoring.

(** ** Invariants of the history *)

Section Invariants.

Context {Slide : Type}.

Implicit Types (w : World Slide) (c : Call Slide).

Lemma Forall_prefix {A : Type} (P : A -> Prop) (m : nat) (l : list A) :
  Forall P l -> Forall P (firstn m l).
Proof.
  intros H. rewrite Forall_forall in *. intros x Hx. apply H.
  rewrite <- (firstn_skipn m l). apply in_or_app. now left.
Qed.

Lemma Forall_tail {A : Type} (P : A -> Prop) (l : list A) :
  Forall P l -> Forall P (tl l).
Proof. intros H. destruct l; [exact H|]. now inversion H. Qed.

Lemma sorted_prefix (m : nat) (ks : list Z) :
  StronglySorted Z.lt ks -> StronglySorted Z.lt (firstn m ks).
Proof.
  revert m. induction ks as [|k ks IH]; intros m Hs.
  - destruct m; constructor.
  - destruct m as [|m]; [constructor|]. apply StronglySorted_inv in Hs.
    destruct Hs as [Hs Hf]. simpl. constructor; [now apply IH|].
    now apply Forall_prefix.
Qed.

Lemma sorted_tail (ks : list Z) :
  StronglySorted Z.lt ks -> StronglySorted Z.lt (tl ks).
Proof.
  intros Hs. destruct ks; [exact Hs|]. now apply StronglySorted_inv in Hs.
Qed.

Lemma evicting_kept w : evicting w = true -> (20 <= kept w)%nat.
Proof.
  unfold evicting, snapshotLengthLimit. intros H. apply Z.gtb_lt in H. lia.
Qed.

Lemma not_evicting_kept w : evicting w = false -> (kept w < 20)%nat.
Proof.
  unfold evicting, snapshotLengthLimit. rewrite Z.gtb_ltb.
  intros H. apply Z.ltb_ge in H. lia.
Qed.

Lemma recorded_keys w :
  map fst (recorded_rows w) =
  (if evicting w then tl (firstn (kept w) (keys (snapshots w)))
   else firstn (kept w) (keys (snapshots w)))
  ++ [next_id (snapshots w)].
Proof.
  unfold recorded_rows, keys, log. rewrite map_app. f_equal.
  destruct (evicting w).
  - now rewrite <- tl_map, <- firstn_map, patch_keys.
  - now rewrite <- firstn_map, patch_keys.
Qed.

Lemma recorded_len w : len (recorded_rows w) = recorded_length w.
Proof.
  unfold len. rewrite <- (length_map fst), recorded_keys, length_app.
  unfold recorded_length. pose proof (kept_le w) as Hk.
  unfold keys, log in *. destruct (evicting w) eqn:E.
  - apply evicting_kept in E.
    assert (H : length (tl (firstn (kept w) (map fst (rows (snapshots w)))))
                = (kept w - 1)%nat).
    { destruct (firstn (kept w) (map fst (rows (snapshots w)))) eqn:Ef.
      - apply (f_equal (@length Z)) in Ef.
        rewrite length_firstn, length_map in Ef. simpl in Ef. lia.
      - apply (f_equal (@length Z)) in Ef.
        rewrite length_firstn, length_map in Ef. simpl in *. lia. }
    rewrite H. simpl. lia.
  - rewrite length_firstn, length_map. simpl. lia.
Qed.

Lemma recorded_wf w :
  table_wf (snapshots w) -> table_wf (snapshots (recorded w)).
Proof.
  unfold table_wf. intros H. apply sorted_app_fresh in H.
  destruct H as [Hs Hb]. unfold keys at 1. cbn [recorded snapshots rows next_id].
  rewrite recorded_keys.
  set (X := if evicting w then _ else _).
  assert (HX : StronglySorted Z.lt X /\
               Forall (fun k => k < next_id (snapshots w)) X).
  { subst X. destruct (evicting w); split.
    - now apply sorted_tail, sorted_prefix.
    - now apply Forall_tail, Forall_prefix.
    - now apply sorted_prefix.
    - now apply Forall_prefix. }
  destruct HX as [HXs HXb].
  apply sorted_snoc; [now apply sorted_snoc|].
  apply Forall_app. split.
  - eapply Forall_impl; [|exact HXb]. simpl. intros; lia.
  - constructor; [lia|constructor].
Qed.

Lemma uninitialized_inv (doc : SlidesStore Slide) (sel : MainStore) :
  history_inv (uninitialized doc sel).
Proof.
  split; [repeat constructor|]. left. repeat split.
Qed.

Lemma table_add_wf (s : Snapshot Slide) (t : Table Slide) :
  table_wf t -> table_wf (table_add s t).
Proof.
  unfold table_wf, table_add, keys. cbn [rows next_id]. intros H.
  rewrite map_app. cbn [map fst].
  apply sorted_snoc; [exact H|].
  apply sorted_app_fresh in H. destruct H as [_ Hb].
  apply Forall_app. split.
  - eapply Forall_impl; [|exact Hb]. simpl. intros; lia.
  - constructor; [lia|constructor].
Qed.

Lemma recorded_length_bounds w :
  history_inv w -> 1 <= recorded_length w <= snapshotLengthLimit.
Proof.
  intros [_ H]. unfold recorded_length.
  destruct (evicting w) eqn:E.
  - apply evicting_kept in E. unfold snapshotLengthLimit in *.
    split; [lia|]. unfold kept, len in *.
    destruct ((cursor w >=? 0) && (cursor w <? Z.of_nat (length (log w)) - 1)) eqn:Ec.
    + apply andb_true_iff in Ec. destruct Ec as [E1 E2].
      apply Z.geb_le in E1. apply Z.ltb_lt in E2. lia.
    + apply andb_false_iff in Ec.
      destruct H as [[Hc [Hl Hn]]|[Hc [Hl Hn]]].
      * rewrite Hn in E. simpl in E. lia.
      * destruct Ec as [Ec|Ec]; [rewrite Z.geb_leb in Ec; apply Z.leb_gt in Ec; lia|].
        apply Z.ltb_ge in Ec. lia.
  - apply not_evicting_kept in E. unfold snapshotLengthLimit. lia.
Qed.

Lemma recorded_inv w : history_inv w -> history_inv (recorded w).
Proof.
  intros H. pose proof (recorded_length_bounds w H) as Hb.
  destruct H as [Hwf _]. split; [now apply recorded_wf|].
  right. unfold cursor, length_, log.
  cbn [recorded snapshot snapshots rows snapshotCursor snapshotLength].
  rewrite recorded_len. lia.
Qed.

Lemma restore_at_inv (i : Z) w :
  history_inv w -> 0 <= i <= length_ w - 1 ->
  history_inv (snd (restore_at i w)).
Proof.
  intros [Hwf H] Hi. unfold restore_at.
  destruct (js_index (log w) i) as [[k s]|]; cbn [snd]; [|now split].
  split; [exact Hwf|]. right.
  unfold cursor, length_, log in *.
  cbn [restored snapshot snapshots snapshotCursor snapshotLength].
  destruct H as [[Hc [Hl Hn]]|[Hc [Hl Hn]]]; [lia|].
  unfold length_. split; [lia|]. split; [exact Hl|exact Hn].
Qed.

Lemma step_inv w c : history_inv w -> history_inv (step healthy w c).
Proof.
  intros H. unfold step. destruct c; cbn [perform].
  - rewrite initSnapshotDatabase_healthy. cbn [snd].
    destruct H as [Hwf _]. split; [now apply table_add_wf|].
    right. unfold cursor, length_, log, table_add, snapshotLengthLimit.
    cbn [snapshot snapshots rows snapshotCursor snapshotLength].
    rewrite len_app. pose proof (len_nonneg (rows (snapshots w))).
    change (len [(next_id (snapshots w), capture w)]) with 1. lia.
  - rewrite addSnapshot_healthy by apply H. now apply recorded_inv.
  - rewrite unDo_healthy. destruct (cursor w <=? 0) eqn:E; [exact H|].
    apply Z.leb_gt in E. apply restore_at_inv; [exact H|].
    destruct H as [_ [[Hc _]|[Hc _]]]; lia.
  - rewrite reDo_healthy. destruct (cursor w >=? length_ w - 1) eqn:E; [exact H|].
    rewrite Z.geb_leb in E. apply Z.leb_gt in E.
    apply restore_at_inv; [exact H|].
    destruct H as [_ [[Hc [Hl _]]|[Hc _]]]; lia.
  - exact H.
  - exact H.
Qed.

Lemma run_inv (cs : list (Call Slide)) w :
  history_inv w -> history_inv (run healthy cs w).
Proof.
  revert w. induction cs as [|c cs IH]; intros w H; [exact H|].
  apply IH. now apply step_inv.
Qed.

Lemma reachable_inv w : reachable w -> history_inv w.
Proof.
  intros [doc [sel [cs ->]]]. apply run_inv, uninitialized_inv.
Qed.

Lemma run_snoc (io : Outcome) (cs : list (Call Slide)) c w :
  run io (cs ++ [c]) w = step io (run io cs w) c.
Proof. unfold run. now rewrite fold_left_app. Qed.

End Invariants.

(** ** The history stays consistent *)

Section Consistency.

Context {Slide : Type}.

Implicit Types (w : World Slide) (c : Call Slide).

Lemma step_consistent w c :
  history_inv w -> length_ w = len (log w) ->
  (c = CallInit -> log w = []) ->
  length_ (step healthy w c) = len (log (step healthy w c)).
Proof.
  intros Hinv Hlen Hinit. unfold step. destruct c; cbn [perform].
  - rewrite initSnapshotDatabase_healthy. cbn [snd].
    unfold length_, log, table_add.
    cbn [snapshot snapshots rows snapshotLength].
    unfold log in Hinit. now rewrite (Hinit eq_refl).
  - rewrite addSnapshot_healthy by apply Hinv. cbn [snd].
    unfold length_, log.
    cbn [recorded snapshot snapshots rows snapshotLength].
    now rewrite recorded_len.
  - rewrite unDo_healthy. destruct (cursor w <=? 0); [exact Hlen|].
    unfold restore_at.
    destruct (js_index (log w) (cursor w - 1)) as [[k s]|]; exact Hlen.
  - rewrite reDo_healthy. destruct (cursor w >=? length_ w - 1); [exact Hlen|].
    unfold restore_at.
    destruct (js_index (log w) (cursor w + 1)) as [[k s]|]; exact Hlen.
  - exact Hlen.
  - exact Hlen.
Qed.

Lemma run_consistent (cs : list (Call Slide)) w :
  history_inv w -> length_ w = len (log w) ->
  init_on_empty healthy cs w = true ->
  history_inv (run healthy cs w) /\
  length_ (run healthy cs w) = len (log (run healthy cs w)).
Proof.
  revert w. induction cs as [|c cs IH]; intros w Hinv Hlen Hok.
  - now split.
  - cbn [run fold_left]. apply IH.
    + now apply step_inv.
    + apply step_consistent; [exact Hinv|exact Hlen|].
      intros ->. cbn [init_on_empty] in Hok.
      destruct (log w); [reflexivity|discriminate].
    + cbn [init_on_empty] in Hok.
      destruct c, (log w); try exact Hok; discriminate.
Qed.

Lemma step_started w c :
  history_inv w -> 0 <= cursor w \/ started [c] = true ->
  0 <= cursor (step healthy w c).
Proof.
  intros Hinv Hc. unfold step. destruct c; cbn [perform].
  - rewrite initSnapshotDatabase_healthy. cbn. lia.
  - rewrite addSnapshot_healthy by apply Hinv. cbn [snd].
    unfold cursor. cbn [recorded snapshot snapshotCursor].
    pose proof (recorded_length_bounds w Hinv). lia.
  - destruct Hc as [Hc|Hc]; [|discriminate Hc].
    rewrite unDo_healthy. destruct (cursor w <=? 0) eqn:E; [exact Hc|].
    apply Z.leb_gt in E. unfold restore_at.
    destruct (js_index (log w) (cursor w - 1)) as [[k s]|]; [|exact Hc].
    unfold cursor. cbn [snd restored snapshot snapshotCursor].
    fold (cursor w). lia.
  - destruct Hc as [Hc|Hc]; [|discriminate Hc].
    rewrite reDo_healthy.
    destruct (cursor w >=? length_ w - 1); [exact Hc|]. unfold restore_at.
    destruct (js_index (log w) (cursor w + 1)) as [[k s]|]; [|exact Hc].
    unfold cursor. cbn [snd restored snapshot snapshotCursor].
    fold (cursor w). lia.
  - destruct Hc as [Hc|Hc]; [exact Hc|discriminate Hc].
  - destruct Hc as [Hc|Hc]; [exact Hc|discriminate Hc].
Qed.

Lemma run_started (cs : list (Call Slide)) w :
  history_inv w -> 0 <= cursor w \/ started cs = true ->
  0 <= cursor (run healthy cs w).
Proof.
  revert w. induction cs as [|c cs IH]; intros w Hinv Hc.
  - destruct Hc as [Hc|Hc]; [exact Hc|discriminate Hc].
  - cbn [run fold_left]. apply IH; [now apply step_inv|].
    destruct (started [c]) eqn:Ec.
    + left. apply step_started; [exact Hinv|now right].
    + destruct Hc as [Hc|Hc].
      * left. apply step_started; [exact Hinv|now left].
      * right. unfold started in *. cbn [existsb] in Hc, Ec.
        rewrite orb_false_r in Ec. rewrite Ec in Hc. exact Hc.
Qed.

Lemma init_called_started (cs : list (Call Slide)) :
  init_called cs = true -> started cs = true.
Proof.
  unfold init_called, started. rewrite !existsb_exists.
  intros [c [Hin Hc]]. exists c. split; [exact Hin|].
  now destruct c.
Qed.

(** C2 (as amended): for every finite sequence of calls from the
    uninitialised state in which [init] is only called while the log is
    empty, when the sequence is over [snapshotLength] is the number of rows
    an ordered scan of the log retrieves, and [0 <= cursor <= length - 1],
    or, where [init] was never called, [cursor = -1] and [length = 0];
    and the cursor is -1 only where neither [init] nor [record] was
    called. *)
Theorem history_consistent_after_calls
  (doc : SlidesStore Slide) (sel : MainStore) (cs : list (Call Slide)) :
  init_on_empty healthy cs (uninitialized doc sel) = true ->
  history_consistent cs (run healthy cs (uninitialized doc sel)) /\
  (started cs = true ->
   0 <= cursor (run healthy cs (uninitialized doc sel))).
Proof.
  intros Hok.
  destruct (run_consistent cs (uninitialized doc sel)) as [[_ Hinv] Hlen];
    [apply uninitialized_inv|reflexivity|exact Hok|].
  assert (Hst : started cs = true ->
                0 <= cursor (run healthy cs (uninitialized doc sel))).
  { intros H. apply run_started; [apply uninitialized_inv|now right]. }
  split; [|exact Hst]. split; [exact Hlen|].
  destruct (init_called cs) eqn:Ei.
  - left. specialize (Hst (init_called_started cs Ei)).
    destruct Hinv as [[Hc _]|[Hc _]]; lia.
  - destruct Hinv as [[Hc [Hl _]]|[Hc _]]; [right|left]; tauto.
Qed.

(** C3: after every [addSnapshot], whatever calls came before it from the
    uninitialised state, [snapshotLength] is at most 20. *)
Theorem length_at_most_limit_after_record
  (doc : SlidesStore Slide) (sel : MainStore) (cs : list (Call Slide)) :
  length_ (run healthy (cs ++ [CallRecord]) (uninitialized doc sel)) <= 20.
Proof.
  rewrite run_snoc.
  pose proof (run_inv cs _ (uninitialized_inv doc sel)) as Hinv.
  unfold step. cbn [perform].
  rewrite addSnapshot_healthy by apply Hinv. cbn [snd].
  apply (recorded_length_bounds _ Hinv).
Qed.

End Consistency.

(** C2, a run of the amended statement: init, three edits recorded, two
    undone, one redone. *)
Lemma history_consistent_after_calls_witness :
  let cs := [CallInit; CallRecord; CallRecord; CallRecord;
             CallUndo; CallUndo; CallRedo] in
  history_consistent cs (run healthy cs fresh) /\
  (started cs = true -> 0 <= cursor (run healthy cs fresh)).
Proof.
  intros cs.
  apply (history_consistent_after_calls (mkSlidesStore 0 deck) (mkMainStore [])
           cs).
  reflexivity.
Defined.

(** C2 as stated fails: after [init] was called twice the log holds two
    rows and [snapshotLength] is 1. *)
Lemma init_twice_inconsistent :
  ~ history_consistent [CallInit; CallInit]
      (run healthy [CallInit; CallInit] fresh).
Proof.
  unfold history_consistent. intros [H _]. vm_compute in H. discriminate H.
Qed.

(** ** The focus patch *)

(** C1, where the code departs from it: with twenty rows in the log and the
    cursor on the last, [addSnapshot] evicts the oldest row and patches the
    row at position [length - 3] of the resulting log (key 19); the
    second-to-newest surviving row, at position [length - 2] (key 20), keeps
    the [index] 0 it was captured with. *)
Theorem focus_patch_off_by_one_when_evicting :
  len (log full_history) = 20 /\ cursor full_history = 19 /\
  slideIndex (slidesStore full_history) = 5 /\
  let w' := snd (addSnapshot healthy full_history) in
  length_ w' = 20 /\ len (log w') = 20 /\
  focus_at w' (length_ w' - 1) = Some (21, 5) /\
  focus_at w' (length_ w' - 2) = Some (20, 0) /\
  focus_at w' (length_ w' - 3) = Some (19, 5).
Proof. vm_compute. repeat split. Qed.

(** ** Log requests that fail *)

(** C9, where the code departs from it: the update request of
    [addSnapshot] is not awaited.  When it fails, [addSnapshot] still
    resolves, the cursor and the length advance, and the row that was to
    be patched keeps its [index]. *)
Theorem update_failure_does_not_propagate :
  let w := run healthy [CallInit; HostEdit 3 deck] fresh in
  let r := addSnapshot update_fails w in
  (cursor w, length_ w) = (0, 1) /\
  fst r = Resolved tt /\
  (cursor (snd r), length_ (snd r)) = (1, 2) /\
  focus_at (snd r) 0 = Some (1, 0) /\
  focus_at (snd (addSnapshot healthy w)) 0 = Some (1, 3).
Proof. vm_compute. repeat split. Qed.

(** ** Undo and redo *)

Section UndoRedo.

Context {Slide : Type}.

Implicit Types (w : World Slide).

Lemma restored_slide_index (c : Z) (s : Snapshot Slide) w :
  slideIndex (slidesStore (restored c s w))
  = Z.min (index s) (len (slides s) - 1).
Proof.
  cbn [restored slidesStore slideIndex].
  destruct (index s >? len (slides s) - 1) eqn:E.
  - apply Z.gtb_lt in E. lia.
  - rewrite Z.gtb_ltb in E. apply Z.ltb_ge in E. lia.
Qed.

(** C6: the snapshot that [unDo] (and likewise [reDo]) puts back sets the
    current slide index to the minimum of its [index] and the number of
    its slides minus one. *)
Theorem restore_clamps_slide_index w (k : Z) (s : Snapshot Slide) :
  (0 < cursor w -> js_index (log w) (cursor w - 1) = Some (k, s) ->
   exists w', unDo healthy w = (Resolved tt, w') /\
              storeSlides (slidesStore w') = slides s /\
              slideIndex (slidesStore w')
              = Z.min (index s) (len (slides s) - 1)) /\
  (cursor w < length_ w - 1 -> js_index (log w) (cursor w + 1) = Some (k, s) ->
   exists w', reDo healthy w = (Resolved tt, w') /\
              storeSlides (slidesStore w') = slides s /\
              slideIndex (slidesStore w')
              = Z.min (index s) (len (slides s) - 1)).
Proof.
  split; intros Hc Hs.
  - rewrite unDo_healthy. apply Z.leb_gt in Hc. rewrite Hc.
    unfold restore_at. rewrite Hs. eexists. split; [reflexivity|].
    split; [reflexivity|apply restored_slide_index].
  - rewrite reDo_healthy.
    assert (E : (cursor w >=? length_ w - 1) = false)
      by (rewrite Z.geb_leb; apply Z.leb_gt; lia).
    rewrite E. unfold restore_at. rewrite Hs. eexists.
    split; [reflexivity|]. split; [reflexivity|apply restored_slide_index].
Qed.

(** C7: [unDo] with the cursor at 0 or below, and [reDo] with the cursor
    at [length - 1] or above, resolve and leave the whole world as it is:
    cursor, length, log, slides, slide index and selection; this whether
    the log answers requests or not. *)
Theorem undo_redo_noop_at_the_ends (io : Outcome) w :
  (cursor w <= 0 -> unDo io w = (Resolved tt, w)) /\
  (cursor w >= length_ w - 1 -> reDo io w = (Resolved tt, w)).
Proof.
  split; intros H.
  - unfold unDo, bind, gets, ret. apply Z.leb_le in H. now rewrite H.
  - unfold reDo, bind, gets, ret.
    assert (E : (cursor w >=? length_ w - 1) = true)
      by (rewrite Z.geb_leb; apply Z.leb_le; lia).
    now rewrite E.
Qed.

(** C10: in the uninitialised state [addSnapshot] ends in the very state
    [initSnapshotDatabase] ends in: one row, holding the current slides
    and slide index, cursor 0, length 1. *)
Theorem record_when_uninitialized_is_init w :
  cursor w = -1 -> length_ w = 0 -> log w = [] ->
  addSnapshot healthy w = initSnapshotDatabase healthy w /\
  initSnapshotDatabase healthy w =
  (Resolved tt,
   mkWorld (mkScreenState 0 1)
           (mkTable [(next_id (snapshots w), capture w)]
                    (next_id (snapshots w) + 1))
           (slidesStore w) (mainStore w)).
Proof.
  destruct w as [[c l] [rs nid] doc sel].
  unfold cursor, length_, log. cbn [snapshot snapshots rows snapshotCursor snapshotLength].
  intros -> -> ->. split; reflexivity.
Qed.

End UndoRedo.

(** C6 at a snapshot with [index] 7 and three slides: the slide index
    becomes 2, by [unDo] and by [reDo]. *)
Lemma restore_clamps_slide_index_witness :
  (exists w', unDo healthy stale_focus = (Resolved tt, w') /\
              storeSlides (slidesStore w') = short_deck /\
              slideIndex (slidesStore w') = 2) /\
  (exists w', reDo healthy stale_focus = (Resolved tt, w') /\
              storeSlides (slidesStore w') = short_deck /\
              slideIndex (slidesStore w') = 2).
Proof.
  split.
  - apply (proj1 (restore_clamps_slide_index stale_focus 1
                    (mkSnapshot 7 short_deck))); reflexivity.
  - apply (proj2 (restore_clamps_slide_index stale_focus 3
                    (mkSnapshot 7 short_deck))); reflexivity.
Defined.

(** C7 right after [init]: the cursor is 0 and the length 1, so neither
    [unDo] nor [reDo] does anything. *)
Lemma undo_redo_noop_at_the_ends_witness :
  let w := run healthy [CallInit] fresh in
  unDo healthy w = (Resolved tt, w) /\ reDo healthy w = (Resolved tt, w).
Proof.
  intros w. split.
  - apply (proj1 (undo_redo_noop_at_the_ends healthy w)).
    vm_compute. discriminate.
  - apply (proj2 (undo_redo_noop_at_the_ends healthy w)).
    vm_compute. discriminate.
Defined.

(** C10 in a fresh session. *)
Lemma record_when_uninitialized_is_init_witness :
  addSnapshot healthy fresh = initSnapshotDatabase healthy fresh /\
  initSnapshotDatabase healthy fresh =
  (Resolved tt,
   mkWorld (mkScreenState 0 1)
           (mkTable [(1, mkSnapshot 0 deck)] 2)
           (mkSlidesStore 0 deck) (mkMainStore [])).
Proof.
  apply (record_when_uninitialized_is_init fresh); reflexivity.
Defined.

(** ** Truncation and eviction *)

Section Truncation.

Context {Slide : Type}.

Implicit Types (w : World Slide).

Lemma patch_contents p i (l : list (Z * Snapshot Slide)) :
  map (fun r => (fst r, slides (snd r))) (patch_at p i l)
  = map (fun r => (fst r, slides (snd r))) l.
Proof.
  revert p. induction l as [|r l IH]; intros [|p]; simpl; try reflexivity.
  now rewrite IH.
Qed.

Lemma recorded_contents w :
  contents (recorded w) =
  (if evicting w then tl (firstn (kept w) (contents w))
   else firstn (kept w) (contents w))
  ++ [(next_id (snapshots w), storeSlides (slidesStore w))].
Proof.
  unfold contents, log. cbn [recorded snapshots rows].
  unfold recorded_rows, log. rewrite map_app. f_equal.
  destruct (evicting w).
  - now rewrite <- tl_map, <- firstn_map, patch_contents.
  - now rewrite <- firstn_map, patch_contents.
Qed.

Lemma kept_truncating w :
  0 <= cursor w < len (log w) - 1 -> kept w = Z.to_nat (cursor w + 1).
Proof.
  intros H. unfold kept.
  assert (E : (cursor w >=? 0) && (cursor w <? len (log w) - 1) = true).
  { apply andb_true_iff. split; [apply Z.geb_le|apply Z.ltb_lt]; lia. }
  now rewrite E.
Qed.

Lemma kept_at_end w :
  cursor w >= len (log w) - 1 -> kept w = length (log w).
Proof.
  intros H. unfold kept.
  assert (E : (cursor w <? len (log w) - 1) = false)
    by (apply Z.ltb_ge; lia).
  now rewrite E, andb_false_r.
Qed.

Lemma NoDup_app_disjoint {A : Type} (a b : list A) (x : A) :
  NoDup (a ++ b) -> In x a -> In x b -> False.
Proof.
  induction a as [|y a IH]; simpl; intros Hnd Ha Hb; [exact Ha|].
  inversion Hnd as [|? ? Hy Hnd']; subst. destruct Ha as [->|Ha].
  - apply Hy. apply in_or_app. now right.
  - now apply IH.
Qed.

(** C4: with the rows [A; B; C; D] in the log and the cursor on [B],
    [addSnapshot] leaves [A], [B] (its focus index patched) and the new
    row, cursor 2 and length 3.  And in every reachable world whose cursor
    is below the last key, the rows after the cursor position are the ones
    deleted: the rows up to the cursor stay, by key and content and in
    order, followed by the new one. *)
Theorem branch_truncation :
  (forall w A B C D,
     log w = [A; B; C; D] -> table_wf (snapshots w) -> cursor w = 1 ->
     exists w', addSnapshot healthy w = (Resolved tt, w') /\
       log w' = [A; (fst B, set_index (slideIndex (slidesStore w)) (snd B));
                 (next_id (snapshots w), capture w)] /\
       cursor w' = 2 /\ length_ w' = 3) /\
  (forall w,
     reachable w -> cursor w < len (keys (snapshots w)) - 1 ->
     exists w', addSnapshot healthy w = (Resolved tt, w') /\
       contents w' =
         firstn (Z.to_nat (cursor w + 1)) (contents w)
         ++ [(next_id (snapshots w), storeSlides (slidesStore w))] /\
       (forall k, In k (skipn (Z.to_nat (cursor w + 1)) (keys (snapshots w))) ->
                  ~ In k (keys (snapshots w'))) /\
       cursor w' = cursor w + 1 /\ length_ w' = cursor w + 2).
Proof.
  split.
  - intros [st [rs nid] doc sel] A B C D Hlog Hwf Hc.
    unfold log, cursor in *. cbn [snapshots snapshot rows] in *. subst rs.
    rewrite addSnapshot_healthy by exact Hwf.
    eexists. split; [reflexivity|].
    unfold recorded, recorded_rows, recorded_length, evicting, kept,
      cursor, log, length_.
    cbn [snapshots snapshot rows snapshotCursor snapshotLength next_id
         slidesStore].
    rewrite Hc. repeat split.
  - intros w Hr Hlt. apply reachable_inv in Hr.
    pose proof Hr as [Hwf Hinv].
    unfold keys in Hlt. rewrite len_map in Hlt. fold (log w) in Hlt.
    assert (Hc : 0 <= cursor w).
    { destruct Hinv as [[Hc [_ Hn]]|[Hc _]]; [|lia].
      rewrite Hn in Hlt. change (len []) with 0 in Hlt. lia. }
    assert (Hk : kept w = Z.to_nat (cursor w + 1))
      by (apply kept_truncating; lia).
    assert (He : evicting w = false).
    { unfold evicting. rewrite Hk, Z.gtb_ltb. apply Z.ltb_ge.
      unfold snapshotLengthLimit in *.
      destruct Hinv as [[Hc' _]|[Hc' [Hl [Hn|Hn]]]]; lia. }
    rewrite addSnapshot_healthy by exact Hwf.
    eexists. split; [reflexivity|].
    split; [|split; [|split]].
    + now rewrite recorded_contents, He, Hk.
    + intros k Hin Hin'. unfold keys in Hin' at 1.
      cbn [recorded snapshots rows] in Hin'.
      rewrite recorded_keys, He, Hk in Hin'.
      apply sorted_app_fresh in Hwf. destruct Hwf as [Hs Hb].
      apply in_app_or in Hin'. destruct Hin' as [Hin'|[<-|[]]].
      * apply sorted_NoDup in Hs.
        rewrite <- (firstn_skipn (Z.to_nat (cursor w + 1))) in Hs.
        exact (NoDup_app_disjoint _ _ k Hs Hin' Hin).
      * rewrite Forall_forall in Hb.
        assert (Hin0 : In (next_id (snapshots w)) (keys (snapshots w))).
        { rewrite <- (firstn_skipn (Z.to_nat (cursor w + 1))).
          apply in_or_app. now right. }
        specialize (Hb _ Hin0). lia.
    + unfold cursor at 1. cbn [recorded snapshot snapshotCursor].
      unfold recorded_length. rewrite He, Hk. lia.
    + unfold length_ at 1. cbn [recorded snapshot snapshotLength].
      unfold recorded_length. rewrite He, Hk. lia.
Qed.

(** C5: with twenty rows in the log and the cursor on the last,
    [addSnapshot] leaves twenty rows: the ones it found but for the
    oldest, by key and content and in order, followed by the newly
    captured one. *)
Theorem capacity_eviction w :
  table_wf (snapshots w) -> len (log w) = 20 -> cursor w = 19 ->
  exists w', addSnapshot healthy w = (Resolved tt, w') /\
    len (log w') = 20 /\ length_ w' = 20 /\ cursor w' = 19 /\
    contents w' =
      tl (contents w)
      ++ [(next_id (snapshots w), storeSlides (slidesStore w))] /\
    js_index (log w') 19 = Some (next_id (snapshots w), capture w) /\
    (forall k0, js_index (keys (snapshots w)) 0 = Some k0 ->
                ~ In k0 (keys (snapshots w'))).
Proof.
  intros Hwf Hn Hc.
  assert (Hlen : length (log w) = 20%nat) by (unfold len in Hn; lia).
  assert (Hk : kept w = 20%nat)
    by (rewrite kept_at_end; [exact Hlen|lia]).
  assert (He : evicting w = true) by (unfold evicting; now rewrite Hk).
  assert (HL : recorded_length w = 20)
    by (unfold recorded_length; now rewrite He, Hk).
  rewrite addSnapshot_healthy by exact Hwf.
  eexists. split; [reflexivity|].
  assert (Hlog : len (log (recorded w)) = 20).
  { unfold log. cbn [recorded snapshots rows]. now rewrite recorded_len. }
  split; [exact Hlog|]. split; [exact HL|].
  split; [unfold cursor; cbn [recorded snapshot snapshotCursor]; lia|].
  split; [|split].
  - rewrite recorded_contents, He, Hk. do 2 f_equal.
    apply firstn_all2. unfold contents. rewrite length_map. lia.
  - unfold log in *. cbn [recorded snapshots rows] in *.
    unfold recorded_rows in *. rewrite He in *.
    set (X := tl _) in *.
    assert (HX : length X = 19%nat).
    { unfold len in Hlog. rewrite length_app in Hlog. simpl in Hlog. lia. }
    change 19 with (Z.of_nat 19). rewrite js_index_nth.
    rewrite nth_error_app2 by lia. now rewrite HX.
  - intros k0 H0 Hin. unfold keys in Hin at 1.
    cbn [recorded snapshots rows] in Hin.
    rewrite recorded_keys, He, Hk in Hin.
    rewrite firstn_all2 in Hin
      by (unfold keys; rewrite length_map; fold (log w); lia).
    apply sorted_app_fresh in Hwf. destruct Hwf as [Hs Hb].
    change 0 with (Z.of_nat 0) in H0. rewrite js_index_nth in H0.
    destruct (keys (snapshots w)) as [|k ks] eqn:Eks; [discriminate|].
    simpl in H0. injection H0 as ->. cbn [tl] in Hin.
    apply in_app_or in Hin. destruct Hin as [Hin|[E|[]]].
    + apply sorted_NoDup in Hs. inversion Hs; contradiction.
    + inversion Hb; subst. lia.
Qed.

End Truncation.

Ltac increasing_keys := unfold table_wf; vm_compute; repeat constructor.

(** C4 on [undone_twice]: rows 3 and 4 go, row 2 gets the focus index 4,
    row 5 is the new one. *)
Lemma branch_truncation_witness :
  (exists w', addSnapshot healthy undone_twice = (Resolved tt, w') /\
     log w' = [(1, mkSnapshot 1 deck);
               (2, mkSnapshot 4 (firstn 2 deck));
               (5, mkSnapshot 4 (firstn 5 deck))] /\
     cursor w' = 2 /\ length_ w' = 3) /\
  (exists w', addSnapshot healthy undone_twice = (Resolved tt, w') /\
     contents w' = [(1, deck); (2, firstn 2 deck); (5, firstn 5 deck)] /\
     (forall k, In k [3; 4] -> ~ In k (keys (snapshots w'))) /\
     cursor w' = 2 /\ length_ w' = 3).
Proof.
  split.
  - apply (proj1 branch_truncation undone_twice
             (1, mkSnapshot 1 deck) (2, mkSnapshot 2 (firstn 2 deck))
             (3, mkSnapshot 3 (firstn 3 deck))
             (4, mkSnapshot 3 (firstn 4 deck))).
    + reflexivity.
    + increasing_keys.
    + reflexivity.
  - apply (proj2 branch_truncation undone_twice).
    + eexists _, _, _. reflexivity.
    + reflexivity.
Defined.

(** C5 on [at_capacity]: key 1 goes, key 21 comes. *)
Lemma capacity_eviction_witness :
  exists w', addSnapshot healthy at_capacity = (Resolved tt, w') /\
    len (log w') = 20 /\ length_ w' = 20 /\ cursor w' = 19 /\
    contents w' = tl (contents at_capacity) ++ [(21, deck)] /\
    js_index (log w') 19 = Some (21, mkSnapshot 0 deck) /\
    (forall k0, js_index (keys (snapshots at_capacity)) 0 = Some k0 ->
                ~ In k0 (keys (snapshots w'))).
Proof.
  apply (capacity_eviction at_capacity).
  - increasing_keys.
  - reflexivity.
  - reflexivity.
Defined.

(** ** Undo, then redo *)

Section RoundTrip.

Context {Slide : Type}.

Implicit Types (w : World Slide).

Lemma js_index_last {A : Type} (X : list A) (x : A) :
  js_index (X ++ [x]) (len X) = Some x.
Proof.
  unfold len. rewrite js_index_nth, nth_error_app2 by lia.
  now rewrite Nat.sub_diag.
Qed.

(** Right after [addSnapshot] the cursor is on the row just captured. *)
Lemma recorded_last w :
  js_index (log (recorded w)) (cursor (recorded w))
  = Some (next_id (snapshots w), capture w).
Proof.
  pose proof (recorded_len w) as HL.
  unfold log, cursor. cbn [recorded snapshots snapshot rows snapshotCursor].
  unfold recorded_rows in *. set (X := if evicting w then _ else _) in *.
  rewrite len_app in HL. change (len [_]) with 1 in HL.
  replace (recorded_length w - 1) with (len X) by lia.
  apply js_index_last.
Qed.

Lemma undo_redo_recorded w :
  exists w2 w3,
    unDo healthy (recorded w) = (Resolved tt, w2) /\
    reDo healthy w2 = (Resolved tt, w3) /\
    storeSlides (slidesStore w3) = storeSlides (slidesStore w) /\
    cursor w3 = cursor (recorded w) /\
    length_ w3 = length_ (recorded w) /\
    snapshots w3 = snapshots (recorded w) /\
    (0 < cursor (recorded w) ->
     slideIndex (slidesStore w3)
     = Z.min (slideIndex (slidesStore w))
             (len (storeSlides (slidesStore w)) - 1)) /\
    (0 < cursor (recorded w) ->
     activeElementIdList (mainStore w2) = [] /\
     activeElementIdList (mainStore w3) = []) /\
    (cursor (recorded w) <= 0 -> w2 = recorded w /\ w3 = recorded w).
Proof.
  pose proof (recorded_len w) as HL. pose proof (recorded_last w) as Hlast.
  set (w1 := recorded w) in *.
  assert (Hc : cursor w1 = length_ w1 - 1) by reflexivity.
  assert (Hn : len (log w1) = length_ w1) by exact HL.
  rewrite unDo_healthy. destruct (cursor w1 <=? 0) eqn:E.
  - apply Z.leb_le in E. exists w1, w1. rewrite reDo_healthy.
    assert (E' : (cursor w1 >=? length_ w1 - 1) = true)
      by (rewrite Z.geb_leb; apply Z.leb_le; lia).
    rewrite E'. repeat split; try reflexivity; lia.
  - apply Z.leb_gt in E.
    destruct (js_index_some (log w1) (cursor w1 - 1)) as [[k s] Hs]; [lia|].
    unfold restore_at. rewrite Hs.
    set (w2 := restored (cursor w1 - 1) s w1).
    exists w2. rewrite reDo_healthy.
    assert (E' : (cursor w2 >=? length_ w2 - 1) = false).
    { rewrite Z.geb_leb. apply Z.leb_gt.
      unfold w2, cursor, length_ at 1.
      cbn [restored snapshot snapshotCursor snapshotLength].
      fold (cursor w1). lia. }
    rewrite E'. unfold restore_at.
    replace (cursor w2 + 1) with (cursor w1)
      by (unfold w2, cursor; cbn [restored snapshot snapshotCursor]; lia).
    change (log w2) with (log w1). rewrite Hlast.
    eexists. split; [reflexivity|]. split; [reflexivity|].
    split; [reflexivity|]. split; [reflexivity|]. split; [reflexivity|].
    split; [reflexivity|]. split; [|split].
    + intros _. rewrite restored_slide_index. reflexivity.
    + intros _. split; reflexivity.
    + intros Hle. lia.
Qed.

(** C8 (as amended): in the world that [addSnapshot] leaves, after
    whatever calls came before it from the uninitialised state, [unDo] and
    then [reDo] both resolve and bring back the slides, the cursor, the
    length and the log as they were before the [unDo].  Where there is a
    snapshot to undo to, both steps clear the selection and the slide
    index ends as the minimum of what it was and the number of slides
    minus one; where there is none, nothing changes at all. *)
Theorem undo_then_redo_after_record
  (doc : SlidesStore Slide) (sel : MainStore) (cs : list (Call Slide)) :
  let w1 := run healthy (cs ++ [CallRecord]) (uninitialized doc sel) in
  exists w2 w3,
    unDo healthy w1 = (Resolved tt, w2) /\
    reDo healthy w2 = (Resolved tt, w3) /\
    storeSlides (slidesStore w3) = storeSlides (slidesStore w1) /\
    cursor w3 = cursor w1 /\
    length_ w3 = length_ w1 /\
    snapshots w3 = snapshots w1 /\
    (0 < cursor w1 ->
     slideIndex (slidesStore w3)
     = Z.min (slideIndex (slidesStore w1))
             (len (storeSlides (slidesStore w1)) - 1)) /\
    (0 < cursor w1 ->
     activeElementIdList (mainStore w2) = [] /\
     activeElementIdList (mainStore w3) = []) /\
    (cursor w1 <= 0 -> w2 = w1 /\ w3 = w1).
Proof.
  intros w1. subst w1. rewrite run_snoc.
  pose proof (run_inv cs _ (uninitialized_inv doc sel)) as [Hwf _].
  unfold step. cbn [perform]. rewrite addSnapshot_healthy by exact Hwf.
  cbn [snd].
  destruct (undo_redo_recorded (run healthy cs (uninitialized doc sel)))
    as (w2 & w3 & H).
  exists w2, w3. exact H.
Qed.

End RoundTrip.

(** C8 as stated fails: on [past_the_deck] the slides and the cursor come
    back, the slide index comes back as 1, not 9. *)
Lemma round_trip_clamps_slide_index :
  ~ round_trip_exact past_the_deck.
Proof.
  intros (w2 & w3 & H1 & H2 & _ & _ & H).
  vm_compute in H1. injection H1 as <-.
  vm_compute in H2. injection H2 as <-.
  vm_compute in H. discriminate H.
Qed.

(** ** What holds of the focus patch and of failing requests *)

Section Further.

Context {Slide : Type}.

Implicit Types (w : World Slide).

(** When [addSnapshot] evicts nothing, the row it patches is the
    second-to-newest of the resulting log, and every other row it keeps is
    as it was. *)
Theorem focus_patch_without_eviction w :
  table_wf (snapshots w) -> evicting w = false ->
  exists w', addSnapshot healthy w = (Resolved tt, w') /\
    forall (j : Z) (r : Z * Snapshot Slide),
      0 <= j < length_ w' - 1 -> js_index (log w) j = Some r ->
      js_index (log w') j =
      Some (if j =? length_ w' - 2
            then (fst r, set_index (slideIndex (slidesStore w)) (snd r))
            else r).
Proof.
  intros Hwf He. rewrite addSnapshot_healthy by exact Hwf.
  eexists. split; [reflexivity|]. intros j r Hj Hr.
  pose proof (kept_le w) as Hk.
  unfold length_, log in *.
  cbn [recorded snapshot snapshots rows snapshotLength] in *.
  unfold recorded_length, recorded_rows, log in *. rewrite He in *.
  set (m := kept w) in *. set (i := slideIndex (slidesStore w)).
  unfold js_index in *.
  destruct (j <? 0) eqn:Ej; [apply Z.ltb_lt in Ej; lia|].
  set (n := Z.to_nat j) in *.
  assert (Hn : (n < m)%nat) by (unfold n; lia).
  rewrite nth_error_app1
    by (rewrite length_firstn, patch_length; lia).
  rewrite nth_error_firstn.
  assert (E : (n <? m)%nat = true) by now apply Nat.ltb_lt.
  rewrite E, patch_nth, Hr. cbn [option_map].
  destruct (Nat.eqb_spec n (m - 1)) as [En|En];
    destruct (Z.eqb_spec j (Z.of_nat m + 1 - 2)) as [Ez|Ez];
    try reflexivity; exfalso; unfold n in *; lia.
Qed.

Lemma db_update_keeps_state (io : Outcome) (key : option Z) (i : Z) w :
  snapshot (snd (db_update io key i w)) = snapshot w.
Proof.
  unfold db_update. destruct (io ReqUpdate); [reflexivity|].
  destruct key; reflexivity.
Qed.



End Further.

(** The focus patch on [undone_twice]: the row with key 2 is the one
    patched. *)
Lemma focus_patch_without_eviction_witness :
  exists w', addSnapshot healthy undone_twice = (Resolved tt, w') /\
    forall (j : Z) (r : Z * Snapshot string),
      0 <= j < length_ w' - 1 -> js_index (log undone_twice) j = Some r ->
      js_index (log w') j =
      Some (if j =? length_ w' - 2 then (fst r, set_index 4 (snd r)) else r).
Proof.
  apply (focus_patch_without_eviction undone_twice).
  - increasing_keys.
  - reflexivity.
Defined.


(** ** What the actions leave alone *)

Section Frames.

Context {Slide : Type}.

Implicit Types (w : World Slide) (io : Outcome) (P : World Slide -> Prop).

Lemma preserves_bind {A B : Type} P (m : Action Slide A)
  (k : A -> Action Slide B) :
  preserves P m -> (forall a, preserves P (k a)) -> preserves P (bind m k).
Proof.
  intros Hm Hk w Hw. unfold bind. specialize (Hm w Hw).
  destruct (m w) as [[a|e] w']; cbn [snd] in *; [now apply Hk|exact Hm].
Qed.

Lemma preserves_detached {A : Type} P (m : Action Slide A) :
  preserves P m -> preserves P (detached m).
Proof. intros Hm w Hw. exact (Hm w Hw). Qed.

Lemma preserves_gets {A : Type} P (f : World Slide -> A) :
  preserves P (gets f).
Proof. intros w Hw. exact Hw. Qed.

Lemma preserves_ret {A : Type} P (a : A) : preserves P (ret (Slide:=Slide) a).
Proof. intros w Hw. exact Hw. Qed.

Lemma preserves_throw {A : Type} P (e : Error) :
  preserves P (throw (Slide:=Slide) (A:=A) e).
Proof. intros w Hw. exact Hw. Qed.

Lemma preserves_modify P (f : World Slide -> World Slide) :
  (forall w, P w -> P (f w)) -> preserves P (modify f).
Proof. intros Hf w Hw. now apply Hf. Qed.

(** One step of a proof that a composed action keeps a property. *)
Ltac preserve_step :=
  match goal with
  | |- preserves _ (bind _ _) => apply preserves_bind; [|intros ?]
  | |- preserves _ (detached _) => apply preserves_detached
  | |- preserves _ (gets _) => apply preserves_gets
  | |- preserves _ (ret _) => apply preserves_ret
  | |- preserves _ (throw _) => apply preserves_throw
  | |- preserves _ (if ?b then _ else _) => destruct b
  | |- preserves _ (match ?o with Some _ => _ | None => _ end) =>
      first [destruct o as [[? ?]|] | destruct o]
  | |- preserves _ (let _ := _ in _) => cbv zeta
  end.

Lemma unDo_keeps_log io (t : Table Slide) l : preserves (same_log t l) (unDo io).
Proof.
  unfold unDo, db_toArray, setSlides, updateSlideIndex, setSnapshotCursor,
    setActiveElementIdList.
  repeat preserve_step; apply preserves_modify; intros w H; exact H.
Qed.

Lemma reDo_keeps_log io (t : Table Slide) l : preserves (same_log t l) (reDo io).
Proof.
  unfold reDo, db_toArray, setSlides, updateSlideIndex, setSnapshotCursor,
    setActiveElementIdList.
  repeat preserve_step; apply preserves_modify; intros w H; exact H.
Qed.

Lemma init_keeps_doc io (d : SlidesStore Slide) m :
  preserves (same_doc d m) (initSnapshotDatabase io).
Proof.
  unfold initSnapshotDatabase, db_add, setSnapshotCursor, setSnapshotLength.
  repeat preserve_step; apply preserves_modify; intros w H; exact H.
Qed.

Lemma addSnapshot_keeps_doc io (d : SlidesStore Slide) m :
  preserves (same_doc d m) (addSnapshot io).
Proof.
  unfold addSnapshot, db_keys, db_add, db_update, db_bulkDelete,
    setSnapshotCursor, setSnapshotLength.
  repeat preserve_step;
    try (apply preserves_modify; intros w H; exact H).
Qed.

(** [unDo] and [reDo] read the log and never write it, nor the length;
    [initSnapshotDatabase] and [addSnapshot] never touch the slides, the
    slide index or the selection.  This whether requests fail or not. *)
Theorem actions_keep_to_their_side io w :
  (snapshots (snd (unDo io w)) = snapshots w /\
   length_ (snd (unDo io w)) = length_ w) /\
  (snapshots (snd (reDo io w)) = snapshots w /\
   length_ (snd (reDo io w)) = length_ w) /\
  (slidesStore (snd (initSnapshotDatabase io w)) = slidesStore w /\
   mainStore (snd (initSnapshotDatabase io w)) = mainStore w) /\
  (slidesStore (snd (addSnapshot io w)) = slidesStore w /\
   mainStore (snd (addSnapshot io w)) = mainStore w).
Proof.
  split; [|split; [|split]].
  - apply (unDo_keeps_log io (snapshots w) (length_ w) w). now split.
  - apply (reDo_keeps_log io (snapshots w) (length_ w) w). now split.
  - apply (init_keeps_doc io (slidesStore w) (mainStore w) w). now split.
  - apply (addSnapshot_keeps_doc io (slidesStore w) (mainStore w) w). now split.
Qed.

Lemma upd_same_keys k i (l : list (Z * Snapshot Slide)) :
  map fst (map (upd k i) l) = map fst l.
Proof.
  rewrite map_map. apply map_ext. intros r. apply upd_fst.
Qed.

Lemma table_update_wf k i (t : Table Slide) :
  table_wf t -> table_wf (table_update k i t).
Proof.
  unfold table_wf, table_update, keys. cbn [rows next_id].
  now rewrite upd_same_keys.
Qed.

Lemma table_bulkDelete_wf (ks : list (option Z)) (t : Table Slide) :
  table_wf t -> table_wf (table_bulkDelete ks t).
Proof.
  unfold table_wf, table_bulkDelete, keys. cbn [rows next_id]. intros H.
  apply sorted_app_fresh in H. destruct H as [Hs Hb].
  induction (rows t) as [|r l IH]; [repeat constructor|].
  cbn [map] in Hs, Hb. apply StronglySorted_inv in Hs. destruct Hs as [Hs Hf].
  inversion Hb as [|? ? Hr Hb']; subst. specialize (IH Hs Hb').
  cbn [filter]. destruct (negb (listed ks (fst r))); [|exact IH].
  cbn [map app]. constructor; [exact IH|].
  apply Forall_app. split; [|now repeat constructor].
  rewrite Forall_forall in *. intros x Hx. apply in_map_iff in Hx.
  destruct Hx as [r' [<- Hr']]. apply filter_In in Hr'.
  apply Hf. apply in_map. apply Hr'.
Qed.

(** Whatever the log answers, the keys stay increasing. *)
Lemma perform_keeps_wf io (c : Call Slide) :
  preserves (fun w => table_wf (snapshots w)) (perform io c).
Proof.
  destruct c; cbn [perform];
    unfold initSnapshotDatabase, addSnapshot, unDo, reDo, db_keys, db_add,
      db_update, db_bulkDelete, db_toArray, setSlides, updateSlideIndex,
      setSnapshotCursor, setSnapshotLength, setActiveElementIdList;
    repeat preserve_step;
    apply preserves_modify; intros w H;
    first [ exact H
          | apply table_add_wf, H
          | apply table_update_wf, H
          | apply table_bulkDelete_wf, H ].
Qed.

Lemma run_io_keeps_wf (cs : list (Outcome * Call Slide)) w :
  table_wf (snapshots w) -> table_wf (snapshots (run_io cs w)).
Proof.
  revert w. induction cs as [|[io c] cs IH]; intros w H; [exact H|].
  apply IH. exact (perform_keeps_wf io c w H).
Qed.

Lemma recorded_length_pos w : 1 <= recorded_length w.
Proof.
  unfold recorded_length. destruct (evicting w) eqn:E; [|lia].
  apply evicting_kept in E. lia.
Qed.

(** Whatever calls came before from the uninitialised state, and
    whichever of their log requests failed, an [addSnapshot] whose requests
    succeed leaves [snapshotLength] equal to the number of rows, the cursor
    on the newest row, which holds the current slides and slide index, and
    nothing to redo. *)
Theorem record_resynchronizes
  (doc : SlidesStore Slide) (sel : MainStore)
  (cs : list (Outcome * Call Slide)) :
  let w := run_io cs (uninitialized doc sel) in
  exists w', addSnapshot healthy w = (Resolved tt, w') /\
    length_ w' = len (log w') /\
    cursor w' = length_ w' - 1 /\ 0 <= cursor w' /\
    canRedo (snapshot w') = false /\
    js_index (log w') (cursor w') = Some (next_id (snapshots w), capture w).
Proof.
  intros w.
  assert (Hwf : table_wf (snapshots w)).
  { apply run_io_keeps_wf. repeat constructor. }
  rewrite addSnapshot_healthy by exact Hwf. eexists. split; [reflexivity|].
  pose proof (recorded_length_pos w) as Hpos.
  split; [|split; [|split; [|split]]].
  - unfold length_, log. cbn [recorded snapshot snapshots rows snapshotLength].
    now rewrite recorded_len.
  - reflexivity.
  - unfold cursor. cbn [recorded snapshot snapshotCursor]. lia.
  - unfold canRedo. cbn [recorded snapshot snapshotCursor snapshotLength].
    apply Z.ltb_irrefl.
  - apply recorded_last.
Qed.

End Frames.

(** ** Moving the cursor *)

Section Moving.

Context {Slide : Type}.

Implicit Types (w : World Slide).

Lemma restore_at_in_range w (i : Z) :
  history_inv w -> 0 <= i <= length_ w - 1 ->
  exists k s, js_index (log w) i = Some (k, s) /\
              restore_at i w = (Resolved tt, restored i s w).
Proof.
  intros [_ H] Hi.
  assert (Hlen : length_ w <= len (log w)).
  { destruct H as [[_ [Hl _]]|[_ [_ [Hl|Hl]]]]; lia. }
  destruct (js_index_some (log w) i) as [[k s] Hs]; [lia|].
  exists k, s. split; [exact Hs|]. unfold restore_at. now rewrite Hs.
Qed.

(** In a reachable world, when [canUndo] holds [unDo] resolves, moves the
    cursor one position back and puts the slides of the snapshot there in
    place; when [canRedo] holds [reDo] does so one position forward.  Both
    clear the selection and leave length and log alone. *)
Theorem undo_redo_move_one_step w :
  reachable w ->
  (canUndo (snapshot w) = true ->
   exists k s w', js_index (log w) (cursor w - 1) = Some (k, s) /\
     unDo healthy w = (Resolved tt, w') /\
     cursor w' = cursor w - 1 /\ length_ w' = length_ w /\
     snapshots w' = snapshots w /\
     storeSlides (slidesStore w') = slides s /\
     activeElementIdList (mainStore w') = []) /\
  (canRedo (snapshot w) = true ->
   exists k s w', js_index (log w) (cursor w + 1) = Some (k, s) /\
     reDo healthy w = (Resolved tt, w') /\
     cursor w' = cursor w + 1 /\ length_ w' = length_ w /\
     snapshots w' = snapshots w /\
     storeSlides (slidesStore w') = slides s /\
     activeElementIdList (mainStore w') = []).
Proof.
  intros Hr. apply reachable_inv in Hr. pose proof Hr as [_ Hinv].
  split; intros Hcan.
  - unfold canUndo in Hcan. apply Z.gtb_lt in Hcan. fold (cursor w) in Hcan.
    destruct (restore_at_in_range w (cursor w - 1) Hr) as (k & s & Hs & Hrest).
    { destruct Hinv as [[Hc _]|[Hc _]]; lia. }
    exists k, s, (restored (cursor w - 1) s w). split; [exact Hs|].
    rewrite unDo_healthy. apply Z.leb_gt in Hcan. rewrite Hcan.
    split; [exact Hrest|]. repeat split.
  - unfold canRedo in Hcan. apply Z.ltb_lt in Hcan.
    fold (cursor w) (length_ w) in Hcan.
    destruct (restore_at_in_range w (cursor w + 1) Hr) as (k & s & Hs & Hrest).
    { destruct Hinv as [[Hc [Hl _]]|[Hc _]]; lia. }
    exists k, s, (restored (cursor w + 1) s w). split; [exact Hs|].
    rewrite reDo_healthy.
    assert (E : (cursor w >=? length_ w - 1) = false)
      by (rewrite Z.geb_leb; apply Z.leb_gt; lia).
    rewrite E. split; [exact Hrest|]. repeat split.
Qed.

(** In a reachable world with something to undo, [unDo] and then [reDo]
    end on the old cursor with the slides of the snapshot under it, not
    with whatever was edited since and not recorded; so do [reDo] and then
    [unDo] where there is something to redo. *)
Theorem there_and_back_reloads_the_snapshot w :
  reachable w ->
  (canUndo (snapshot w) = true ->
   exists k s w1 w2, js_index (log w) (cursor w) = Some (k, s) /\
     unDo healthy w = (Resolved tt, w1) /\
     reDo healthy w1 = (Resolved tt, w2) /\
     cursor w2 = cursor w /\ length_ w2 = length_ w /\
     snapshots w2 = snapshots w /\
     storeSlides (slidesStore w2) = slides s /\
     slideIndex (slidesStore w2) = Z.min (index s) (len (slides s) - 1)) /\
  (canRedo (snapshot w) = true ->
   exists k s w1 w2, js_index (log w) (cursor w) = Some (k, s) /\
     reDo healthy w = (Resolved tt, w1) /\
     unDo healthy w1 = (Resolved tt, w2) /\
     cursor w2 = cursor w /\ length_ w2 = length_ w /\
     snapshots w2 = snapshots w /\
     storeSlides (slidesStore w2) = slides s /\
     slideIndex (slidesStore w2) = Z.min (index s) (len (slides s) - 1)).
Proof.
  intros Hr. apply reachable_inv in Hr. pose proof Hr as [_ Hinv].
  split.
  - intros Hcan.
    unfold canUndo in Hcan. apply Z.gtb_lt in Hcan. fold (cursor w) in Hcan.
    assert (Hc : 0 < cursor w <= length_ w - 1)
      by (destruct Hinv as [[Hc _]|[Hc _]]; lia).
    destruct (restore_at_in_range w (cursor w - 1) Hr) as (k1 & s1 & Hs1 & H1);
      [lia|].
    set (w1 := restored (cursor w - 1) s1 w) in *.
    assert (Hinv1 : history_inv w1).
    { pose proof (restore_at_inv (cursor w - 1) w Hr) as Hi.
      rewrite H1 in Hi. apply Hi. lia. }
    destruct (restore_at_in_range w1 (cursor w) Hinv1) as (k & s & Hs & H2).
    { unfold w1, length_. cbn [restored snapshot snapshotLength].
      fold (length_ w). lia. }
    exists k, s, w1, (restored (cursor w) s w1).
    split; [exact Hs|]. rewrite unDo_healthy.
    assert (E1 : (cursor w <=? 0) = false) by (apply Z.leb_gt; lia).
    rewrite E1. split; [exact H1|]. rewrite reDo_healthy.
    assert (E2 : (cursor w1 >=? length_ w1 - 1) = false).
    { rewrite Z.geb_leb. apply Z.leb_gt. unfold w1, cursor, length_ at 1.
      cbn [restored snapshot snapshotCursor snapshotLength].
      fold (cursor w). lia. }
    rewrite E2.
    replace (cursor w1 + 1) with (cursor w)
      by (unfold w1, cursor at 2; cbn [restored snapshot snapshotCursor]; lia).
    split; [exact H2|]. split; [reflexivity|]. split; [reflexivity|].
    split; [reflexivity|]. split; [reflexivity|]. apply restored_slide_index.
  - intros Hcan.
    unfold canRedo in Hcan. apply Z.ltb_lt in Hcan.
    fold (cursor w) (length_ w) in Hcan.
    assert (Hc0 : 0 <= cursor w)
      by (destruct Hinv as [[Hc [Hl _]]|[Hc _]]; lia).
    destruct (restore_at_in_range w (cursor w + 1) Hr) as (k1 & s1 & Hs1 & H1);
      [lia|].
    set (w1 := restored (cursor w + 1) s1 w) in *.
    assert (Hinv1 : history_inv w1).
    { pose proof (restore_at_inv (cursor w + 1) w Hr) as Hi.
      rewrite H1 in Hi. apply Hi. lia. }
    destruct (restore_at_in_range w1 (cursor w) Hinv1) as (k & s & Hs & H2).
    { unfold w1, length_. cbn [restored snapshot snapshotLength].
      fold (length_ w). lia. }
    exists k, s, w1, (restored (cursor w) s w1).
    split; [exact Hs|]. rewrite reDo_healthy.
    assert (E1 : (cursor w >=? length_ w - 1) = false)
      by (rewrite Z.geb_leb; apply Z.leb_gt; lia).
    rewrite E1. split; [exact H1|]. rewrite unDo_healthy.
    assert (E2 : (cursor w1 <=? 0) = false).
    { apply Z.leb_gt. unfold w1, cursor at 1.
      cbn [restored snapshot snapshotCursor]. lia. }
    rewrite E2.
    replace (cursor w1 - 1) with (cursor w)
      by (unfold w1, cursor at 2; cbn [restored snapshot snapshotCursor]; lia).
    split; [exact H2|]. split; [reflexivity|]. split; [reflexivity|].
    split; [reflexivity|]. split; [reflexivity|]. apply restored_slide_index.
Qed.

Lemma undo_many w (n : nat) :
  history_inv w ->
  let w' := run healthy (repeat CallUndo n) w in
  cursor w' = Z.max (Z.min (cursor w) 0) (cursor w - Z.of_nat n) /\
  length_ w' = length_ w /\ snapshots w' = snapshots w.
Proof.
  revert w. induction n as [|n IH]; intros w Hinv; cbn zeta.
  - cbn [repeat run fold_left]. repeat split. lia.
  - cbn [repeat].
    change (run healthy (CallUndo :: repeat CallUndo n) w)
      with (run healthy (repeat CallUndo n) (step healthy w CallUndo)).
    unfold step. cbn [perform]. rewrite unDo_healthy.
    destruct (cursor w <=? 0) eqn:E; cbn [snd].
    + apply Z.leb_le in E. destruct (IH w Hinv) as (Hc & Hl & Hs).
      rewrite Hc. repeat split; [lia|exact Hl|exact Hs].
    + apply Z.leb_gt in E.
      assert (Hr : 0 <= cursor w - 1 <= length_ w - 1)
        by (destruct Hinv as [_ [[Hc _]|[Hc _]]]; lia).
      destruct (restore_at_in_range w (cursor w - 1) Hinv Hr)
        as (k & s & _ & Hrest).
      pose proof (restore_at_inv (cursor w - 1) w Hinv Hr) as Hinv1.
      rewrite Hrest in *. cbn [snd] in *.
      destruct (IH _ Hinv1) as (Hc & Hl & Hs).
      rewrite Hc, Hl, Hs.
      change (cursor (restored (cursor w - 1) s w)) with (cursor w - 1).
      change (length_ (restored (cursor w - 1) s w)) with (length_ w).
      change (snapshots (restored (cursor w - 1) s w)) with (snapshots w).
      repeat split. lia.
Qed.

Lemma redo_many w (n : nat) :
  history_inv w ->
  let w' := run healthy (repeat CallRedo n) w in
  cursor w' = Z.min (length_ w - 1) (cursor w + Z.of_nat n) /\
  length_ w' = length_ w /\ snapshots w' = snapshots w.
Proof.
  revert w. induction n as [|n IH]; intros w Hinv; cbn zeta.
  - cbn [repeat run fold_left]. repeat split.
    destruct Hinv as [_ [[Hc [Hl _]]|[Hc _]]]; lia.
  - cbn [repeat].
    change (run healthy (CallRedo :: repeat CallRedo n) w)
      with (run healthy (repeat CallRedo n) (step healthy w CallRedo)).
    unfold step. cbn [perform]. rewrite reDo_healthy.
    destruct (cursor w >=? length_ w - 1) eqn:E; cbn [snd].
    + rewrite Z.geb_leb in E. apply Z.leb_le in E.
      destruct (IH w Hinv) as (Hc & Hl & Hs).
      rewrite Hc. repeat split; [lia|exact Hl|exact Hs].
    + rewrite Z.geb_leb in E. apply Z.leb_gt in E.
      assert (Hr : 0 <= cursor w + 1 <= length_ w - 1)
        by (destruct Hinv as [_ [[Hc [Hl _]]|[Hc _]]]; lia).
      destruct (restore_at_in_range w (cursor w + 1) Hinv Hr)
        as (k & s & _ & Hrest).
      pose proof (restore_at_inv (cursor w + 1) w Hinv Hr) as Hinv1.
      rewrite Hrest in *. cbn [snd] in *.
      destruct (IH _ Hinv1) as (Hc & Hl & Hs).
      rewrite Hc, Hl, Hs.
      change (cursor (restored (cursor w + 1) s w)) with (cursor w + 1).
      change (length_ (restored (cursor w + 1) s w)) with (length_ w).
      change (snapshots (restored (cursor w + 1) s w)) with (snapshots w).
      repeat split. lia.
Qed.

(** From a reachable world, [n] calls of [unDo] in a row move the cursor
    back by [n] and stop on the first snapshot (an uninitialised cursor
    stays at -1); [n] calls of [reDo] move it forward by [n] and stop on
    the last.  Length and log are as before. *)
Theorem repeated_undo_redo w (n : nat) :
  reachable w ->
  (let w' := run healthy (repeat CallUndo n) w in
   cursor w' = Z.max (Z.min (cursor w) 0) (cursor w - Z.of_nat n) /\
   length_ w' = length_ w /\ snapshots w' = snapshots w) /\
  (let w' := run healthy (repeat CallRedo n) w in
   cursor w' = Z.min (length_ w - 1) (cursor w + Z.of_nat n) /\
   length_ w' = length_ w /\ snapshots w' = snapshots w).
Proof.
  intros Hr. apply reachable_inv in Hr. split.
  - now apply undo_many.
  - now apply redo_many.
Qed.

Lemma js_index_none {A : Type} (a : list A) (i : Z) :
  i < 0 \/ len a <= i -> js_index a i = None.
Proof.
  intros H. unfold js_index, len in *.
  destruct (i <? 0) eqn:E; [reflexivity|]. apply Z.ltb_ge in E.
  apply nth_error_None. lia.
Qed.

(** Where the position [unDo] or [reDo] is to move to holds no row (a
    cursor or a length set past the log, both safe integers), the action
    rejects with the type error of destructuring [undefined] and changes
    nothing. *)
Theorem restore_without_row_rejects w :
  safe_integer (cursor w) -> safe_integer (length_ w) ->
  (0 < cursor w -> len (log w) <= cursor w - 1 ->
   unDo healthy w = (Rejected TypeError, w)) /\
  (cursor w < length_ w - 1 -> cursor w + 1 < 0 \/ len (log w) <= cursor w + 1 ->
   reDo healthy w = (Rejected TypeError, w)).
Proof.
  intros _ _. split.
  - intros Hc Hn. rewrite unDo_healthy.
    assert (E : (cursor w <=? 0) = false) by (apply Z.leb_gt; lia).
    rewrite E. unfold restore_at. now rewrite js_index_none by lia.
  - intros Hc Hn. rewrite reDo_healthy.
    assert (E : (cursor w >=? length_ w - 1) = false)
      by (rewrite Z.geb_leb; apply Z.leb_gt; lia).
    rewrite E. unfold restore_at. now rewrite js_index_none by lia.
Qed.

(** [addSnapshot] evicts one row and no more: with twenty rows or more in
    the log and the cursor on the last or past it, as many rows are there
    afterwards as before, the oldest gone and the new one appended, and
    [snapshotLength] is that number, above the limit if the log was. *)
Theorem eviction_removes_one_row w :
  table_wf (snapshots w) -> 20 <= len (log w) ->
  cursor w >= len (log w) - 1 ->
  exists w', addSnapshot healthy w = (Resolved tt, w') /\
    len (log w') = len (log w) /\ length_ w' = len (log w) /\
    cursor w' = len (log w) - 1 /\
    contents w' =
      tl (contents w)
      ++ [(next_id (snapshots w), storeSlides (slidesStore w))].
Proof.
  intros Hwf Hn Hc.
  assert (Hk : kept w = length (log w)) by now apply kept_at_end.
  assert (He : evicting w = true).
  { unfold evicting, snapshotLengthLimit. rewrite Hk. apply Z.gtb_lt.
    unfold len in Hn. lia. }
  assert (HL : recorded_length w = len (log w))
    by (unfold recorded_length; now rewrite He, Hk).
  rewrite addSnapshot_healthy by exact Hwf.
  eexists. split; [reflexivity|]. split; [|split; [|split]].
  - unfold log at 1. cbn [recorded snapshots rows].
    now rewrite recorded_len.
  - exact HL.
  - unfold cursor. cbn [recorded snapshot snapshotCursor]. now rewrite HL.
  - rewrite recorded_contents, He, Hk. do 2 f_equal.
    apply firstn_all2. unfold contents. now rewrite length_map.
Qed.

End Moving.

(** ** A batched delete that fails *)

Section FailedDelete.

Context {Slide : Type}.

Implicit Types (w : World Slide) (io : Outcome).

Lemma upd_same_contents k i (l : list (Z * Snapshot Slide)) :
  map (fun r => (fst r, slides (snd r))) (map (upd k i) l)
  = map (fun r => (fst r, slides (snd r))) l.
Proof.
  rewrite map_map. apply map_ext. intros r. unfold upd.
  now destruct (fst r =? k).
Qed.

Lemma db_update_contents io (key : option Z) (i : Z) w :
  contents (snd (db_update io key i w)) = contents w /\
  next_id (snapshots (snd (db_update io key i w))) = next_id (snapshots w).
Proof.
  unfold db_update. destruct (io ReqUpdate); [now split|].
  destruct key as [k|]; [|now split].
  unfold contents, log. cbn. now rewrite upd_same_contents.
Qed.

(** [addSnapshot] is not one transaction: when the key listing and the
    append succeed and the batched delete fails, the action rejects with
    cursor and length as before, and the appended row stays in the log
    behind every row that was there, none of which is deleted. *)
Theorem failed_delete_leaves_the_new_row io w :
  io ReqKeys = false -> io ReqAdd = false -> io ReqBulkDelete = true ->
  exists w', addSnapshot io w = (Rejected IoError, w') /\
    snapshot w' = snapshot w /\
    contents w' =
      contents w ++ [(next_id (snapshots w), storeSlides (slidesStore w))] /\
    next_id (snapshots w') = next_id (snapshots w) + 1.
Proof.
  intros Hk Ha Hd. rewrite addSnapshot_settle, Hk, Ha.
  set (w0 := with_table (table_add (capture w)) w).
  assert (H0 : contents w0 =
               contents w ++ [(next_id (snapshots w), storeSlides (slidesStore w))])
    by (unfold w0, contents, log; cbn; now rewrite map_app).
  unfold settle. cbv zeta.
  set (sl := if _ >? snapshotLengthLimit then _ else _).
  set (nd := if _ >? snapshotLengthLimit then _ else _).
  unfold bind at 1. destruct (sl >=? 2).
  - unfold bind at 1. unfold gets, detached. cbn beta iota.
    unfold bind, db_bulkDelete. rewrite Hd. unfold throw.
    eexists. split; [reflexivity|].
    split; [now rewrite db_update_keeps_state|].
    destruct (db_update_contents io
                (js_index (keys (snapshots w)) (sl - 2))
                (slideIndex (slidesStore w0)) w0) as [Hc Hn].
    split; [now rewrite Hc|now rewrite Hn].
  - unfold ret. unfold bind, db_bulkDelete. rewrite Hd. unfold throw.
    eexists. split; [reflexivity|]. split; [reflexivity|].
    split; [exact H0|reflexivity].
Qed.

End FailedDelete.

(** ** The window of the newest snapshots *)

Section Window.

Context {Slide : Type}.

Implicit Types (w : World Slide).

Lemma seq_slide (a m : nat) :
  tl (map Z.of_nat (seq a (S m))) ++ [Z.of_nat (a + S m)]
  = map Z.of_nat (seq (S a) (S m)).
Proof.
  rewrite (seq_S m (S a)), map_app.
  change (seq a (S m)) with (a :: seq (S a) m). cbn [map tl].
  do 3 f_equal. lia.
Qed.

Lemma window_record (n : nat) w : window n w -> window (S n) (recorded w).
Proof.
  intros (Hwf & Hnid & Hkeys & Hc & Hl).
  set (L := Nat.min (n + 1) 20) in *.
  assert (Hlen : length (log w) = L).
  { unfold log. rewrite <- (length_map fst). fold (keys (snapshots w)).
    now rewrite Hkeys, length_map, length_seq. }
  assert (Hk : kept w = L)
    by (rewrite kept_at_end; [exact Hlen|unfold len; lia]).
  assert (Hfirst : firstn L (keys (snapshots w)) = keys (snapshots w)).
  { apply firstn_all2. unfold keys. rewrite length_map. fold (log w). lia. }
  unfold window. split; [now apply recorded_wf|].
  split; [cbn [recorded snapshots next_id]; lia|].
  unfold keys at 1, cursor, length_.
  cbn [recorded snapshots snapshot rows snapshotCursor snapshotLength].
  rewrite recorded_keys. unfold recorded_length, evicting, snapshotLengthLimit.
  rewrite Hk, Hfirst, Hkeys, Hnid.
  destruct (Nat.ltb_spec L 20) as [Hlt|Hge].
  - assert (E : (Z.of_nat L + 1 >? 20) = false)
      by (rewrite Z.gtb_ltb; apply Z.ltb_ge; lia).
    rewrite E.
    assert (HL : L = (n + 1)%nat) by lia.
    replace (Nat.min (S n + 1) 20) with (S L) by lia.
    replace (S n + 2 - S L)%nat with (n + 2 - L)%nat by lia.
    split; [|lia].
    rewrite seq_S, map_app. cbn [map]. do 3 f_equal. lia.
  - assert (E : (Z.of_nat L + 1 >? 20) = true) by (apply Z.gtb_lt; lia).
    rewrite E.
    assert (HL : L = 20%nat) by lia.
    replace (Nat.min (S n + 1) 20) with 20%nat by lia.
    rewrite HL. split; [|lia].
    replace (S n + 2 - 20)%nat with (S (n + 2 - 20)) by lia.
    rewrite <- seq_slide. do 3 f_equal. lia.
Qed.

Lemma window_after (doc : SlidesStore Slide) (sel : MainStore)
  (cs : list (Call Slide)) :
  records_and_edits cs = true ->
  window (count_records cs) (run healthy (CallInit :: cs) (uninitialized doc sel)).
Proof.
  induction cs as [|c cs IH] using rev_ind; intros Hcs.
  - unfold window. split; [repeat constructor|]. repeat split.
  - unfold records_and_edits in Hcs. rewrite forallb_app in Hcs.
    apply andb_true_iff in Hcs. destruct Hcs as [Hcs Hc].
    specialize (IH Hcs). rewrite app_comm_cons, run_snoc.
    unfold count_records. rewrite filter_app, length_app.
    fold (count_records cs). unfold step.
    destruct c; try discriminate Hc; cbn [perform filter recording length].
    + rewrite addSnapshot_healthy by apply IH. cbn [snd].
      replace (count_records cs + 1)%nat with (S (count_records cs)) by lia.
      now apply window_record.
    + rewrite Nat.add_0_r. exact IH.
    + rewrite Nat.add_0_r. exact IH.
Qed.

(** After [init] and any edits and calls of [addSnapshot], [n] of them,
    with nothing undone in between, the log holds the newest
    [min (n + 1) 20] snapshots, those with the keys up to [n + 1], the
    cursor is on the last and the length is their number. *)
Theorem log_holds_the_newest_twenty
  (doc : SlidesStore Slide) (sel : MainStore) (cs : list (Call Slide)) :
  records_and_edits cs = true ->
  let n := count_records cs in
  let held := Nat.min (n + 1) 20 in
  let w := run healthy (CallInit :: cs) (uninitialized doc sel) in
  keys (snapshots w) = map Z.of_nat (seq (n + 2 - held) held) /\
  cursor w = Z.of_nat held - 1 /\
  length_ w = Z.of_nat held.
Proof.
  intros Hcs. destruct (window_after doc sel cs Hcs) as (_ & _ & H).
  exact H.
Qed.

End Window.

(** ** Focus after an undo *)

Section Focus.

Context {Slide : Type}.

Implicit Types (w : World Slide).

Lemma recorded_patched_row w (r : Z * Snapshot Slide) :
  evicting w = false -> (1 <= kept w)%nat ->
  nth_error (log w) (kept w - 1) = Some r ->
  nth_error (recorded_rows w) (kept w - 1)
  = Some (fst r, set_index (slideIndex (slidesStore w)) (snd r)).
Proof.
  intros He Hk Hr. pose proof (kept_le w) as Hle.
  unfold recorded_rows. rewrite He.
  rewrite nth_error_app1 by (rewrite length_firstn, patch_length; lia).
  rewrite nth_error_firstn.
  assert (E : (kept w - 1 <? kept w)%nat = true) by (apply Nat.ltb_lt; lia).
  rewrite E, patch_nth, Nat.eqb_refl, Hr. reflexivity.
Qed.

(** In a reachable world with the cursor on a snapshot below the
    twentieth, [addSnapshot] followed by [unDo] comes back to the snapshot
    under the old cursor, with its slides, and with the slide index the
    user was on when the new snapshot was taken (clamped to those slides),
    not the one the old snapshot was captured with. *)
Theorem undo_after_record_keeps_focus w :
  reachable w -> 0 <= cursor w < 19 ->
  exists k s w1 w2, js_index (log w) (cursor w) = Some (k, s) /\
    addSnapshot healthy w = (Resolved tt, w1) /\
    unDo healthy w1 = (Resolved tt, w2) /\
    cursor w2 = cursor w /\
    storeSlides (slidesStore w2) = slides s /\
    slideIndex (slidesStore w2)
    = Z.min (slideIndex (slidesStore w)) (len (slides s) - 1).
Proof.
  intros Hr Hc. apply reachable_inv in Hr. pose proof Hr as [Hwf Hinv].
  assert (Hlen : cursor w <= length_ w - 1 /\ length_ w <= len (log w)).
  { destruct Hinv as [[Hc' _]|[Hc' [_ [Hl|Hl]]]]; lia. }
  assert (Hk : kept w = Z.to_nat (cursor w + 1)).
  { destruct (Z.ltb_spec (cursor w) (len (log w) - 1)).
    - apply kept_truncating. lia.
    - rewrite kept_at_end by lia. unfold len in *. lia. }
  assert (He : evicting w = false).
  { unfold evicting, snapshotLengthLimit. rewrite Hk, Z.gtb_ltb.
    apply Z.ltb_ge. lia. }
  destruct (js_index_some (log w) (cursor w)) as [[k s] Hs]; [lia|].
  assert (Hs' : nth_error (log w) (kept w - 1) = Some (k, s)).
  { unfold js_index in Hs.
    destruct (cursor w <? 0) eqn:E; [discriminate|].
    rewrite Hk. replace (Z.to_nat (cursor w + 1) - 1)%nat
      with (Z.to_nat (cursor w)) by lia. exact Hs. }
  pose proof (recorded_patched_row w (k, s) He ltac:(lia) Hs') as Hrow.
  exists k, s, (recorded w).
  set (s' := set_index (slideIndex (slidesStore w)) s).
  exists (restored (cursor w) s' (recorded w)).
  split; [exact Hs|]. split; [now apply addSnapshot_healthy|].
  assert (Hcur : cursor (recorded w) = cursor w + 1).
  { unfold cursor at 1. cbn [recorded snapshot snapshotCursor].
    unfold recorded_length. rewrite He, Hk. lia. }
  rewrite unDo_healthy, Hcur.
  assert (E : (cursor w + 1 <=? 0) = false) by (apply Z.leb_gt; lia).
  rewrite E. replace (cursor w + 1 - 1) with (cursor w) by lia.
  unfold restore_at, js_index.
  assert (E0 : (cursor w <? 0) = false) by (apply Z.ltb_ge; lia).
  rewrite E0. unfold log at 1. cbn [recorded snapshots rows].
  replace (Z.to_nat (cursor w)) with (kept w - 1)%nat by lia.
  rewrite Hrow. cbn [fst snd]. subst s'.
  split; [reflexivity|]. split; [reflexivity|]. split; [now cbn|].
  rewrite restored_slide_index. reflexivity.
Qed.

End Focus.

(** On [undone_twice]: recording the edit on the fifth slide and undoing
    it lands on the two slides of the second snapshot, index clamped to 1;
    the snapshot had been captured with index 2. *)
Lemma undo_after_record_keeps_focus_witness :
  exists k s w1 w2, js_index (log undone_twice) 1 = Some (k, s) /\
    addSnapshot healthy undone_twice = (Resolved tt, w1) /\
    unDo healthy w1 = (Resolved tt, w2) /\
    cursor w2 = 1 /\
    storeSlides (slidesStore w2) = slides s /\
    slideIndex (slidesStore w2) = Z.min 4 (len (slides s) - 1).
Proof.
  apply (undo_after_record_keeps_focus undone_twice).
  - eexists _, _, _. reflexivity.
  - vm_compute. split; [discriminate|reflexivity].
Defined.

(** ** The properties above on the example worlds *)

(** On [undone_twice] (cursor 1 of 4) both [unDo] and [reDo] move. *)
Lemma undo_redo_move_one_step_witness :
  (exists k s w', js_index (log undone_twice) 0 = Some (k, s) /\
     unDo healthy undone_twice = (Resolved tt, w') /\
     cursor w' = 0 /\ length_ w' = 4 /\
     snapshots w' = snapshots undone_twice /\
     storeSlides (slidesStore w') = slides s /\
     activeElementIdList (mainStore w') = []) /\
  (exists k s w', js_index (log undone_twice) 2 = Some (k, s) /\
     reDo healthy undone_twice = (Resolved tt, w') /\
     cursor w' = 2 /\ length_ w' = 4 /\
     snapshots w' = snapshots undone_twice /\
     storeSlides (slidesStore w') = slides s /\
     activeElementIdList (mainStore w') = []).
Proof.
  assert (R : reachable undone_twice) by (eexists _, _, _; reflexivity).
  destruct (undo_redo_move_one_step undone_twice R) as [H1 H2].
  split; [apply H1|apply H2]; reflexivity.
Defined.

(** On [undone_twice] the edit not yet recorded (five slides) gives way to
    the two slides of the snapshot under the cursor. *)
Lemma there_and_back_reloads_the_snapshot_witness :
  exists k s w1 w2, js_index (log undone_twice) 1 = Some (k, s) /\
    unDo healthy undone_twice = (Resolved tt, w1) /\
    reDo healthy w1 = (Resolved tt, w2) /\
    cursor w2 = 1 /\ length_ w2 = 4 /\
    snapshots w2 = snapshots undone_twice /\
    storeSlides (slidesStore w2) = slides s /\
    slideIndex (slidesStore w2) = Z.min (index s) (len (slides s) - 1).
Proof.
  assert (R : reachable undone_twice) by (eexists _, _, _; reflexivity).
  apply (proj1 (there_and_back_reloads_the_snapshot undone_twice R)).
  reflexivity.
Defined.

(** Three undos from cursor 1 stop at 0; five redos stop at 3. *)
Lemma repeated_undo_redo_witness :
  cursor (run healthy (repeat CallUndo 3) undone_twice) = 0 /\
  cursor (run healthy (repeat CallRedo 5) undone_twice) = 3.
Proof.
  assert (R : reachable undone_twice) by (eexists _, _, _; reflexivity).
  split.
  - exact (proj1 (proj1 (repeated_undo_redo undone_twice 3 R))).
  - exact (proj1 (proj2 (repeated_undo_redo undone_twice 5 R))).
Defined.

(** On [short_log] (cursor 3, length 5, two rows) both reject. *)
Lemma restore_without_row_rejects_witness :
  unDo healthy short_log = (Rejected TypeError, short_log) /\
  reDo healthy short_log = (Rejected TypeError, short_log).
Proof.
  assert (Hc : safe_integer (cursor short_log))
    by (vm_compute; split; reflexivity).
  assert (Hl : safe_integer (length_ short_log))
    by (vm_compute; split; reflexivity).
  split.
  - apply (proj1 (restore_without_row_rejects short_log Hc Hl)); vm_compute;
      [reflexivity|discriminate].
  - apply (proj2 (restore_without_row_rejects short_log Hc Hl));
      [reflexivity|right; vm_compute; discriminate].
Defined.

(** On [overfull] twenty-one rows remain. *)
Lemma eviction_removes_one_row_witness :
  exists w', addSnapshot healthy overfull = (Resolved tt, w') /\
    len (log w') = 21 /\ length_ w' = 21 /\ cursor w' = 20 /\
    contents w' = tl (contents overfull) ++ [(22, deck)].
Proof.
  apply (eviction_removes_one_row overfull).
  - increasing_keys.
  - vm_compute. discriminate.
  - vm_compute. discriminate.
Defined.

(** On [undone_twice] the fifth row stays behind the four. *)
Lemma failed_delete_leaves_the_new_row_witness :
  exists w', addSnapshot delete_fails undone_twice = (Rejected IoError, w') /\
    snapshot w' = snapshot undone_twice /\
    contents w' = contents undone_twice ++ [(5, firstn 5 deck)] /\
    next_id (snapshots w') = 6.
Proof.
  apply (failed_delete_leaves_the_new_row delete_fails undone_twice);
    reflexivity.
Defined.

(** After [init] and twenty-two records the keys are 4 to 23. *)
Lemma log_holds_the_newest_twenty_witness :
  let w := run healthy (CallInit :: HostEdit 2 deck :: repeat CallRecord 22)
               fresh in
  keys (snapshots w) = map Z.of_nat (seq 4 20) /\
  cursor w = 19 /\ length_ w = 20.
Proof.
  apply (log_holds_the_newest_twenty (mkSlidesStore 0 deck) (mkMainStore [])
           (HostEdit 2 deck :: repeat CallRecord 22)).
  reflexivity.
Defined.
